(** * Knowledge-retrieval agent: retrieval tool, corpus preparer, chat front end

    A shallow embedding of the three Python modules of the repository
    ([agent_module.py], [pdf_to_png_converter.py], [chat_interface.py]) and
    the properties of the retrieval-and-citation pipeline stated about them.

    Conventions.
    - A Python [str] is a [string]; an ASCII pattern is matched byte by byte,
      which agrees with matching on code points for UTF-8 text.
    - A Python [float] is a primitive IEEE-754 double ([PrimFloat.float]).
    - A dict used as a map is a [gmap]; a dict with fixed keys is a record.
    - A call that may raise returns a [result]; the hosted services (the
      embedding model, the vector index) are oracles of a small program type.
    - The limits of the interpreter that [json.loads] can hit (recursion
      depth, integer digit limit) are parameters of the runtime.
    - The file system of the chat front end is that of a POSIX system
      without symbolic links, in which every permission is granted. *)

From Stdlib Require Import ZArith String Ascii List Bool PrimFloat.
From Stdlib Require Import DecimalString DecimalNat.
From stdpp Require Import base option list sorting gmap strings.

Local Open Scope string_scope.
Local Open Scope list_scope.
Local Open Scope nat_scope.

(** ** Python values shared by the three modules *)

Module Py.

(** An exception instance: its class name and its message. *)
Record exn := PyErr { exn_class : string; exn_msg : string }.

(** The outcome of a call: a returned value or a raised exception. *)
Inductive result (A : Type) : Type :=
| Returned (a : A)
| Raised (e : exn).
Global Arguments Returned {A} a.
Global Arguments Raised {A} e.

(** [s.startswith(p)], returning what follows the prefix. *)
Fixpoint strip_prefix (p s : string) : option string :=
  match p with
  | EmptyString => Some s
  | String a p' =>
      match s with
      | EmptyString => None
      | String c s' => if Ascii.eqb a c then strip_prefix p' s' else None
      end
  end.

Definition startswith (s p : string) : bool :=
  match strip_prefix p s with Some _ => true | None => false end.

(** [s.endswith(p)]. *)
Definition endswith (s p : string) : bool :=
  startswith (String.rev s) (String.rev p).

(** A character class of a regular expression. *)
Definition char_class := ascii → bool.

Definition lit (a : ascii) : char_class := Ascii.eqb a.

(** The class [[0-9]] of a [str] pattern: the ten ASCII digits. *)
Definition digit : char_class :=
  λ c, (48 <=? nat_of_ascii c)%nat && (nat_of_ascii c <=? 57)%nat.

Definition lits (s : string) : list char_class :=
  lit <$> list_ascii_of_string s.

(** Match a fixed-width pattern (a sequence of character classes) at the
    start of [s]; the remainder of [s] on success. *)
Fixpoint match_at (pat : list char_class) (s : string) : option string :=
  match pat with
  | [] => Some s
  | p :: pat' =>
      match s with
      | EmptyString => None
      | String c s' => if p c then match_at pat' s' else None
      end
  end.

(** Leftmost, non-overlapping replacement of every match of a non-empty
    fixed-width pattern, scanning left to right: what [re.sub(pat, repl, s)]
    does for such a pattern and [s.replace(old, new)] for a non-empty
    [old]. After a match the scan resumes behind it; [fuel] bounds the
    number of scan steps. *)
Fixpoint sub_scan (fuel : nat) (pat : list char_class) (repl s : string)
  : string :=
  match fuel with
  | O => s
  | S fuel' =>
      match s with
      | EmptyString => EmptyString
      | String c s' =>
          match match_at pat s with
          | Some rest => repl +:+ sub_scan fuel' pat repl rest
          | None => String c (sub_scan fuel' pat repl s')
          end
      end
  end.

(** One scan step consumes at least one character, so [length s] steps
    always suffice. *)
Definition re_sub (pat : list char_class) (repl s : string) : string :=
  sub_scan (String.length s) pat repl s.

(** [s.replace(old, new)] for the non-empty [old] of every call site. *)
Definition replace (s old new : string) : string :=
  re_sub (lits old) new s.

(** [s.split("/")]: what stands between the slashes of [s]. *)
Fixpoint split_slash (s : string) : list string :=
  match s with
  | EmptyString => [EmptyString]
  | String c s' =>
      if Ascii.eqb c "/" then EmptyString :: split_slash s'
      else
        match split_slash s' with
        | seg :: segs => String c seg :: segs
        | [] => [String c EmptyString]
        end
  end.

(** [str(n)] of a non-negative [int]: its decimal numeral. *)
Definition str_of_nat (n : nat) : string :=
  NilEmpty.string_of_uint (Nat.to_uint n).

(** A file-system entry: a regular file with its content, or a
    directory. *)
Inductive node := File (content : string) | Dir.

(** A step of a script acting on a world [W] (files, output, session):
    the world it leaves, and a value or an exception. The effects made
    before an exception stay. *)
Definition M (W A : Type) : Type := W → W * result A.

#[global] Instance M_ret {W} : MRet (M W) := λ A a w, (w, Returned a).
#[global] Instance M_bind {W} : MBind (M W) := λ A B k m w,
  match m w with
  | (w', Returned a) => k a w'
  | (w', Raised e) => (w', Raised e)
  end.

(** A library call whose outcome does not depend on the world. *)
Definition lift {W A} (r : result A) : M W A := λ w, (w, r).

(** [try: body  except Exception as e: handler(e)]. *)
Definition try_except {W A} (body : M W A) (handler : exn → M W A)
  : M W A := λ w,
  match body w with
  | (w', Returned a) => (w', Returned a)
  | (w', Raised e) => handler e w'
  end.

End Py.

Export Py.

(** ** [agent_module.py]: the retrieval tool *)

Module AgentModule.

(** Metadata stored with a page vector (the index's response schema). *)
Record metadata := {
  md_document_name : string;
  md_document_path : string;
  md_page_number : string;
  md_image_description : string
}.

(** One element of [result['matches']]. *)
Record match_ := {
  m_id : string;
  m_score : float;
  m_metadata : metadata
}.

(** The keyword arguments of [index.query]. *)
Record query_request := {
  vector : list float;
  top_k : nat;
  include_metadata : bool
}.

(** The tool's calls to the hosted services, in continuation style:
    [embedding_model.embed_query] and [index.query]. *)
Inductive prog (A : Type) : Type :=
| Ret (a : A)
| EmbedQuery (text : string) (k : list float → prog A)
| IndexQuery (req : query_request) (k : list match_ → prog A).
Global Arguments Ret {A} a.
Global Arguments EmbedQuery {A} text k.
Global Arguments IndexQuery {A} req k.

(** The services as they answer during one run; either may raise. *)
Record services := {
  embed_query : string → result (list float);
  index_query : query_request → result (list match_)
}.

(** A service call as seen from outside. *)
Inductive call :=
| CallEmbed (text : string)
| CallIndex (req : query_request).

(** Run a program against the services. An exception of a service is not
    handled by the tool, so it ends the run. *)
Fixpoint run {A} (sv : services) (p : prog A) : result A :=
  match p with
  | Ret a => Returned a
  | EmbedQuery text k =>
      match embed_query sv text with
      | Returned v => run sv (k v)
      | Raised e => Raised e
      end
  | IndexQuery req k =>
      match index_query sv req with
      | Returned ms => run sv (k ms)
      | Raised e => Raised e
      end
  end.

(** The calls a run makes, in order. *)
Fixpoint calls {A} (sv : services) (p : prog A) : list call :=
  match p with
  | Ret _ => []
  | EmbedQuery text k =>
      CallEmbed text ::
      match embed_query sv text with
      | Returned v => calls sv (k v)
      | Raised _ => []
      end
  | IndexQuery req k =>
      CallIndex req ::
      match index_query sv req with
      | Returned ms => calls sv (k ms)
      | Raised _ => []
      end
  end.

(** [score_threshold = 0.1]: the double nearest to one tenth. *)
Definition score_threshold : float := 0x1.999999999999ap-4%float.

(** The order of a response in descending score: [a] may come before
    [b] when its score is at least that of [b]. *)
Definition ranked_before (a b : match_) : Prop :=
  PrimFloat.leb (m_score b) (m_score a) = true.

(** [match['score'] > score_threshold]. *)
Definition above_threshold (m : match_) : bool :=
  PrimFloat.ltb score_threshold (m_score m).

(** The pattern [r'_page_[0-9][0-9]\.png']. *)
Definition page_suffix_pattern : list char_class :=
  lits "_page_" ++ [digit; digit] ++ lits ".png".

(** [re.sub(r'_page_[0-9][0-9]\.png', '.pdf', name)]. *)
Definition derive_document_name (name : string) : string :=
  re_sub page_suffix_pattern ".pdf" name.

(** A [pathlib.Path] of a POSIX system: its root (empty for a relative
    path) and the names after it. *)
Record py_path := Path { path_root : string; path_names : list string }.

(** [Path(s)]: two leading slashes, and not more, make the root [//],
    any other number the root [/]; the names are what stands between the
    slashes, the empty ones and the single dots left out, and with them
    doubled and trailing slashes. *)
Definition posix_path (s : string) : py_path :=
  {| path_root :=
       if startswith s "//" && negb (startswith s "///") then "//"
       else if startswith s "/" then "/" else "";
     path_names := filter (λ seg, seg ≠ "" ∧ seg ≠ ".") (split_slash s) |}.

(** The dict the tool builds. [document_path], [page_number] and
    [page_description] hold the lists that the source then renders with
    [str(...)]; the rendering is not modelled. *)
Record match_dict := {
  document_name : string;
  document_path : list py_path;
  page_number : list string;
  page_description : list (list string);
  score : float;
  id : string
}.

(** What the tool returns: the sentinel string, or [str(match_dict)]. *)
Inductive tool_return :=
| RetStr (s : string)
| RetDict (d : match_dict).

Definition no_relevant_information : string :=
  "No relevant information found".

Definition newline : string := String (ascii_of_nat 10) EmptyString.

(** The element appended to [document_path_list] for one match. *)
Definition path_of (m : match_) : py_path :=
  posix_path (replace (md_document_path (m_metadata m)) "\" "/").

(** The element appended to [page_number_list] for one match. *)
Definition page_number_of (m : match_) : string :=
  replace (md_page_number (m_metadata m)) "page_" "".

(** The element appended to [page_description_list] for one match. *)
Definition citation (document_name : string) (m : match_) : list string :=
  [ "Source: " +:+ document_name +:+ ", Page Number: "
    +:+ md_page_number (m_metadata m)
    +:+ "," +:+ newline +:+ " Content: "
    +:+ md_image_description (m_metadata m) +:+ newline ].

(** The loop that fills [match_list]: the matches that pass the
    threshold, in the order of [result['matches']]. *)
Definition evidence_filter (matches : list match_) : list match_ :=
  filter (λ m, above_threshold m = true) matches.

(** The body of the tool after the two service calls. *)
Definition assemble (matches : list match_) : tool_return :=
  let match_list := evidence_filter matches in
  match match_list with
  | [] => RetStr no_relevant_information
  | top :: _ =>
      let document_name :=
        derive_document_name (md_document_name (m_metadata top)) in
      RetDict {|
        document_name := document_name;
        document_path := path_of <$> match_list;
        page_number := page_number_of <$> match_list;
        page_description := citation document_name <$> match_list;
        score := m_score top;
        id := m_id top
      |}
  end.

(** The arguments of the call [index.query(vector=embedded_query,
    top_k=3, include_metadata=True)]. *)
Definition index_request (embedded_query : list float) : query_request :=
  {| vector := embedded_query; top_k := 3; include_metadata := true |}.

Definition retreive_data_from_document (query : string) : prog tool_return :=
  EmbedQuery query (λ embedded_query,
  IndexQuery (index_request embedded_query) (λ matches,
  Ret (assemble matches))).

End AgentModule.

(** ** [pdf_to_png_converter.py]: the corpus preparer *)

Module PdfToPng.

(** A relative [pathlib.Path]: its parts. *)
Definition path := list string.

Definition DOCUMENTS_DIR : path := ["documents"].

(** [p / seg] for a segment without a separator: pathlib drops an empty
    segment and the segment ["."]. *)
Definition path_div (p : path) (seg : string) : path :=
  if decide (seg = "" ∨ seg = ".") then p else p ++ [seg].

(** [p.name]. *)
Definition name (p : path) : string := default "" (last p).

(** [p.parent]. *)
Definition parent (p : path) : path := removelast p.

(** [str(p)]. *)
Definition path_str (p : path) : string :=
  match p with
  | [] => "."
  | seg :: segs => fold_left (λ acc s, acc +:+ "/" +:+ s) segs seg
  end.

(** [s.rfind(c)]. *)
Fixpoint rfind (c : ascii) (s : string) : option nat :=
  match s with
  | EmptyString => None
  | String a s' =>
      match rfind c s' with
      | Some i => Some (S i)
      | None => if Ascii.eqb a c then Some 0 else None
      end
  end.

(** [PurePath.stem] of a file name, as in CPython up to 3.13: the name up
    to its last dot, unless that dot is the first or the last character. *)
Definition stem (file_name : string) : string :=
  match rfind "." file_name with
  | Some i =>
      if (0 <? i)%nat && (i <? String.length file_name - 1)%nat
      then String.substring 0 i file_name
      else file_name
  | None => file_name
  end.

(** The character class of [sanitize_filename]: backslash, slash, star,
    question mark, colon, double quote, less-than, greater-than, bar. *)
Definition illegal_char : char_class :=
  λ c, bool_decide (c ∈ ["\"; "/"; "*"; "?"; ":"; "034"; "<"; ">"; "|"]%char).

(** [re.sub] of that class by an underscore. *)
Definition sanitize_filename (filename : string) : string :=
  re_sub [illegal_char] "_" filename.

(** An image, kept as the bytes [image.save] writes. *)
Definition image := string.

(** What the script acts on: the file system and the standard output. *)
Record world := { fs : gmap path node; stdout : list string }.

Definition print (line : string) : M world unit := λ w,
  ({| fs := fs w; stdout := stdout w ++ [line] |}, Returned ()).

Definition is_dir (p : path) (w : world) : bool :=
  match p with
  | [] => true
  | _ => match fs w !! p with Some Dir => true | _ => false end
  end.

(** [p.mkdir(exist_ok=True)]. *)
Definition mkdir_exist_ok (p : path) : M world unit := λ w,
  match fs w !! p with
  | Some Dir => (w, Returned ())
  | Some (File _) =>
      (w, Raised (PyErr "FileExistsError" (path_str p)))
  | None =>
      if is_dir (parent p) w
      then ({| fs := <[p := Dir]> (fs w); stdout := stdout w |}, Returned ())
      else (w, Raised (PyErr "FileNotFoundError" (path_str p)))
  end.

(** [image.save(p, "PNG")]: create or overwrite the file [p]. *)
Definition image_save (img : image) (p : path) : M world unit := λ w,
  match fs w !! p with
  | Some Dir => (w, Raised (PyErr "IsADirectoryError" (path_str p)))
  | _ =>
      if is_dir (parent p) w
      then ({| fs := <[p := File img]> (fs w); stdout := stdout w |},
            Returned ())
      else (w, Raised (PyErr "FileNotFoundError" (path_str p)))
  end.

(** The PDF libraries: [len(PyPDF2.PdfReader(f).pages)] on the opened file
    and [pdf2image.convert_from_path]; either may raise. *)
Record pdf_tools := {
  pdf_num_pages : path → result nat;
  convert_from_path : path → result (list image)
}.

(** [f"{sanitized_pdf_name}_page_{page_num}.png"]. *)
Definition image_name (sanitized_pdf_name : string) (page_num : nat)
  : string :=
  sanitized_pdf_name +:+ "_page_" +:+ str_of_nat page_num +:+ ".png".

(** [for i, image in enumerate(images): ...], from index [i] on. *)
Fixpoint save_images (output_dir : path) (sanitized_pdf_name : string)
    (i : nat) (images : list image) : M world unit :=
  match images with
  | [] => mret ()
  | img :: rest =>
      let page_num := i + 1 in
      let image_path :=
        path_div output_dir (image_name sanitized_pdf_name page_num) in
      image_save img image_path;;
      print ("  Saved: " +:+ name image_path);;
      save_images output_dir sanitized_pdf_name (S i) rest
  end.

(** The lines printed for one document. *)
Definition processing_line (pdf_name : string) : string :=
  "Processing: " +:+ pdf_name.

Definition success_line (pdf_name : string) : string :=
  "Successfully processed: " +:+ pdf_name.

Definition error_line (pdf_name : string) (e : exn) : string :=
  "Error processing " +:+ pdf_name +:+ ": " +:+ exn_msg e.

(** The body of the [try] block for one document. *)
Definition convert_pages (tools : pdf_tools) (pdf_path output_dir : path)
    (pdf_name sanitized_pdf_name : string) : M world unit :=
  num_pages ← lift (pdf_num_pages tools pdf_path);
  print ("Converting " +:+ str_of_nat num_pages
         +:+ " pages to PNG images...");;
  images ← lift (convert_from_path tools pdf_path);
  save_images output_dir sanitized_pdf_name 0 images;;
  print (success_line pdf_name).

(** The body of [for pdf_path in pdf_files]. *)
Definition process_pdf (tools : pdf_tools) (pdf_path : path)
  : M world unit :=
  let pdf_name := stem (name pdf_path) in
  let sanitized_pdf_name := sanitize_filename pdf_name in
  let output_dir := path_div DOCUMENTS_DIR sanitized_pdf_name in
  mkdir_exist_ok output_dir;;
  print (processing_line pdf_name);;
  try_except
    (convert_pages tools pdf_path output_dir pdf_name sanitized_pdf_name)
    (λ e, print (error_line pdf_name e)).

(** [for pdf_path in pdf_files: ...]. *)
Fixpoint process_all (tools : pdf_tools) (pdf_files : list path)
  : M world unit :=
  match pdf_files with
  | [] => mret ()
  | pdf_path :: rest =>
      process_pdf tools pdf_path;;
      process_all tools rest
  end.

(** What the script reads from its platform: [sys.platform], the outcome
    of [check_poppler()], and [list(DOCUMENTS_DIR.glob("*.pdf"))] in the
    order the directory scan gives. *)
Record platform := {
  is_windows : bool;
  poppler_found : bool;
  glob_pdf : list path
}.

Definition poppler_help : list string :=
  [ String (ascii_of_nat 10)
      "ERROR: Poppler is not installed or not found in your system path.";
    "For Windows, you need to install Poppler for pdf2image to work:";
    "1. Download Poppler for Windows from: https://github.com/oschwartz10612/poppler-windows/releases/";
    "2. Extract the downloaded file to a location on your computer";
    "3. Add the 'bin' directory to your system PATH, or provide the path to poppler in the script";
    String (ascii_of_nat 10)
      "Alternatively, you can specify the poppler_path in the convert_from_path function:";
    "images = convert_from_path(pdf_path, poppler_path='C:\path\to\poppler-xx\bin')" ].

Definition convert_pdf_to_images (pf : platform) (tools : pdf_tools)
  : M world unit := λ w,
  if is_windows pf && negb (poppler_found pf)
  then ({| fs := fs w; stdout := stdout w ++ poppler_help |}, Returned ())
  else if negb (bool_decide (is_Some (fs w !! DOCUMENTS_DIR)))
  then print ("Error: The directory '" +:+ path_str DOCUMENTS_DIR
              +:+ "' does not exist.") w
  else
    let pdf_files := glob_pdf pf in
    match pdf_files with
    | [] => print ("No PDF files found in '" +:+ path_str DOCUMENTS_DIR
                   +:+ "'.") w
    | _ =>
        (print ("Found " +:+ str_of_nat (length pdf_files)
                +:+ " PDF files.");;
         process_all tools pdf_files) w
    end.

End PdfToPng.

(** ** [json.loads] on a [str], as the C scanner of CPython decodes it *)

Module Json.

#[warnings="-register-all"]
Inductive value :=
| JNull
| JBool (b : bool)
| JNumber (lexeme : string)
| JConstant (name : string)
| JString (raw : string)
| JArray (items : list value)
| JObject (members : list (string * value)).

(** The limits of the interpreter that a decoding can hit:
    [sys.get_int_max_str_digits()] (0 for no limit, 4300 by default), and
    the number of nested arrays and objects that the recursion limit
    leaves room for at the call. *)
Record limits := {
  int_max_str_digits : nat;
  recursion_budget : nat
}.

(** The three exceptions of a decoding; the message of a decoding error
    is kept without the position, the messages about string literals
    merged into one. *)
Definition JSONDecodeError (msg : string) : exn :=
  PyErr "JSONDecodeError" msg.

Definition RecursionError (what : string) : exn :=
  PyErr "RecursionError"
    ("maximum recursion depth exceeded while decoding a JSON " +:+ what
     +:+ " from a unicode string").

Definition int_digits_error (lim : limits) (digits : nat) : exn :=
  PyErr "ValueError"
    ("Exceeds the limit (" +:+ str_of_nat (int_max_str_digits lim)
     +:+ " digits) for integer string conversion: value has "
     +:+ str_of_nat digits +:+ " digits; use sys.set_int_max_str_digits()"
     +:+ " to increase the limit").

(** A scan from the start of a string: a value and what follows it, an
    exception, or no fuel left. *)
Inductive parsed (A : Type) : Type :=
| Ok (a : A) (rest : string)
| Err (e : exn)
| OutOfFuel.
Global Arguments Ok {A} a rest.
Global Arguments Err {A} e.
Global Arguments OutOfFuel {A}.

Definition quote : ascii := "034"%char.

(** Space, tab, line feed, carriage return. *)
Definition is_whitespace (c : ascii) : bool :=
  bool_decide (nat_of_ascii c ∈ [32; 9; 10; 13]).

Fixpoint skip_ws (s : string) : string :=
  match s with
  | String c s' => if is_whitespace c then skip_ws s' else s
  | EmptyString => s
  end.

Definition is_hex (c : ascii) : bool :=
  let n := nat_of_ascii c in
  ((48 <=? n) && (n <=? 57) || (65 <=? n) && (n <=? 70)
   || (97 <=? n) && (n <=? 102))%nat.

Definition is_simple_escape (c : ascii) : bool :=
  bool_decide (c ∈ [quote; "\"; "/"; "b"; "f"; "n"; "r"; "t"]%char).

(** The rest of a string literal after its opening quote (strict mode):
    the raw text up to the closing quote, and what follows it. *)
Fixpoint scan_string (s : string) : option (string * string) :=
  match s with
  | EmptyString => None
  | String c s1 =>
      if Ascii.eqb c quote then Some (EmptyString, s1)
      else if Ascii.eqb c "\" then
        match s1 with
        | EmptyString => None
        | String e s2 =>
            if is_simple_escape e then
              prod_map (λ raw, String c (String e raw)) id <$> scan_string s2
            else if Ascii.eqb e "u" then
              match s2 with
              | String h1 (String h2 (String h3 (String h4 s3))) =>
                  if is_hex h1 && is_hex h2 && is_hex h3 && is_hex h4
                  then prod_map
                         (λ raw, String c (String e (String h1 (String h2
                                   (String h3 (String h4 raw))))))
                         id <$> scan_string s3
                  else None
              | _ => None
              end
            else None
        end
      else if (nat_of_ascii c <? 32)%nat then None
      else prod_map (String c) id <$> scan_string s1
  end.

(** The longest prefix of decimal digits, and the rest. *)
Fixpoint span_digits (s : string) : string * string :=
  match s with
  | String c s' =>
      if digit c
      then let '(ds, rest) := span_digits s' in (String c ds, rest)
      else (EmptyString, s)
  | EmptyString => (EmptyString, s)
  end.

(** The integer part: a single zero, or a non-zero digit and more. *)
Definition scan_int (s : string) : option (string * string) :=
  match s with
  | String c s' =>
      if Ascii.eqb c "0" then Some (String c EmptyString, s')
      else if digit c
      then let '(ds, rest) := span_digits s' in Some (String c ds, rest)
      else None
  | EmptyString => None
  end.

(** The fraction, read only when a digit follows the point. *)
Definition scan_frac (s : string) : string * string :=
  match s with
  | String "." s' =>
      match span_digits s' with
      | (EmptyString, _) => (EmptyString, s)
      | (ds, rest) => (String "." ds, rest)
      end
  | _ => (EmptyString, s)
  end.

(** The exponent, read only when a digit follows the mark and sign. *)
Definition scan_exp (s : string) : string * string :=
  match s with
  | String e s' =>
      if Ascii.eqb e "e" || Ascii.eqb e "E" then
        let '(sign, s'') :=
          match s' with
          | String g t =>
              if Ascii.eqb g "+" || Ascii.eqb g "-"
              then (String g EmptyString, t) else (EmptyString, s')
          | EmptyString => (EmptyString, s')
          end in
        match span_digits s'' with
        | (EmptyString, _) => (EmptyString, s)
        | (ds, rest) => (String e (sign +:+ ds), rest)
        end
      else (EmptyString, s)
  | EmptyString => (EmptyString, s)
  end.

Definition scan_number (s : string) : option (string * string) :=
  let '(sign, s1) :=
    match s with
    | String "-" s' => ("-", s')
    | _ => (EmptyString, s)
    end in
  match scan_int s1 with
  | Some (int, s2) =>
      let '(frac, s3) := scan_frac s2 in
      let '(exp, s4) := scan_exp s3 in
      Some (sign +:+ int +:+ frac +:+ exp, s4)
  | None => None
  end.

(** The number of digits of a lexeme without fraction and exponent, which
    is converted with [int]; [None] for one that is converted with
    [float]. *)
Definition int_digits (lexeme : string) : option nat :=
  if existsb (λ c, bool_decide (c ∈ ["."; "e"; "E"]%char))
       (list_ascii_of_string lexeme)
  then None
  else Some (length (filter (λ c, digit c = true)
                       (list_ascii_of_string lexeme))).

(** [int(lexeme)] refuses more digits than the limit (which is 0, for no
    limit, or at least 640). *)
Definition number_value (lim : limits) (lexeme : string) : result value :=
  match int_digits lexeme with
  | Some digits =>
      if (640 <? digits) && (0 <? int_max_str_digits lim)
         && (int_max_str_digits lim <? digits)
      then Raised (int_digits_error lim digits)
      else Returned (JNumber lexeme)
  | None => Returned (JNumber lexeme)
  end.

(** The literals tried before a number. *)
Definition scan_literal (s : string) : option (value * string) :=
  match strip_prefix "null" s with
  | Some rest => Some (JNull, rest)
  | None =>
  match strip_prefix "true" s with
  | Some rest => Some (JBool true, rest)
  | None =>
  match strip_prefix "false" s with
  | Some rest => Some (JBool false, rest)
  | None =>
  match strip_prefix "NaN" s with
  | Some rest => Some (JConstant "NaN", rest)
  | None =>
  match strip_prefix "Infinity" s with
  | Some rest => Some (JConstant "Infinity", rest)
  | None =>
  match strip_prefix "-Infinity" s with
  | Some rest => Some (JConstant "-Infinity", rest)
  | None => None
  end end end end end end.

(** [scan_once]: one JSON term at the start of [s]. [parse_members]
    reads an object from its first key on, [parse_elements] an array from
    its first element on; both consume the closing bracket. [depth] is the
    number of nested arrays and objects that may still be entered:
    entering one more raises [RecursionError]. *)
Fixpoint scan_once (fuel : nat) (lim : limits) (depth : nat) (s : string)
  : parsed value :=
  match fuel with
  | O => OutOfFuel
  | S fuel' =>
      match s with
      | EmptyString => Err (JSONDecodeError "Expecting value")
      | String c s' =>
          if Ascii.eqb c quote then
            match scan_string s' with
            | Some (raw, rest) => Ok (JString raw) rest
            | None => Err (JSONDecodeError "Invalid string")
            end
          else if Ascii.eqb c "{" then
            match depth with
            | O => Err (RecursionError "object")
            | S depth' =>
                match skip_ws s' with
                | String "}" rest => Ok (JObject []) rest
                | s1 =>
                    match parse_members fuel' lim depth' s1 with
                    | Ok ms rest => Ok (JObject ms) rest
                    | Err e => Err e
                    | OutOfFuel => OutOfFuel
                    end
                end
            end
          else if Ascii.eqb c "[" then
            match depth with
            | O => Err (RecursionError "array")
            | S depth' =>
                match skip_ws s' with
                | String "]" rest => Ok (JArray []) rest
                | s1 =>
                    match parse_elements fuel' lim depth' s1 with
                    | Ok vs rest => Ok (JArray vs) rest
                    | Err e => Err e
                    | OutOfFuel => OutOfFuel
                    end
                end
            end
          else
            match scan_literal s with
            | Some (v, rest) => Ok v rest
            | None =>
                match scan_number s with
                | Some (lexeme, rest) =>
                    match number_value lim lexeme with
                    | Returned v => Ok v rest
                    | Raised e => Err e
                    end
                | None => Err (JSONDecodeError "Expecting value")
                end
            end
      end
  end
with parse_members (fuel : nat) (lim : limits) (depth : nat) (s : string)
  : parsed (list (string * value)) :=
  match fuel with
  | O => OutOfFuel
  | S fuel' =>
      match s with
      | String c s1 =>
          if Ascii.eqb c quote then
            match scan_string s1 with
            | Some (key, s2) =>
                match skip_ws s2 with
                | String ":" s3 =>
                    match scan_once fuel' lim depth (skip_ws s3) with
                    | Ok v s4 =>
                        match skip_ws s4 with
                        | String "}" rest => Ok [(key, v)] rest
                        | String "," s5 =>
                            match parse_members fuel' lim depth (skip_ws s5)
                            with
                            | Ok ms rest => Ok ((key, v) :: ms) rest
                            | Err e => Err e
                            | OutOfFuel => OutOfFuel
                            end
                        | _ => Err (JSONDecodeError "Expecting ',' delimiter")
                        end
                    | Err e => Err e
                    | OutOfFuel => OutOfFuel
                    end
                | _ => Err (JSONDecodeError "Expecting ':' delimiter")
                end
            | None => Err (JSONDecodeError "Invalid string")
            end
          else Err (JSONDecodeError
                      "Expecting property name enclosed in double quotes")
      | EmptyString =>
          Err (JSONDecodeError
                 "Expecting property name enclosed in double quotes")
      end
  end
with parse_elements (fuel : nat) (lim : limits) (depth : nat) (s : string)
  : parsed (list value) :=
  match fuel with
  | O => OutOfFuel
  | S fuel' =>
      match scan_once fuel' lim depth s with
      | Ok v s1 =>
          match skip_ws s1 with
          | String "]" rest => Ok [v] rest
          | String "," s2 =>
              match parse_elements fuel' lim depth (skip_ws s2) with
              | Ok vs rest => Ok (v :: vs) rest
              | Err e => Err e
              | OutOfFuel => OutOfFuel
              end
          | _ => Err (JSONDecodeError "Expecting ',' delimiter")
          end
      | Err e => Err e
      | OutOfFuel => OutOfFuel
      end
  end.

(** [json.loads(s)]: leading whitespace, one term, trailing whitespace,
    then the end of the string. Each nesting level and each element of a
    scan takes at least one character, so the fuel given is never used
    up. *)
Definition json_loads (lim : limits) (s : string) : result value :=
  match scan_once (2 * String.length s + 1) lim (recursion_budget lim)
          (skip_ws s) with
  | Ok v rest =>
      match skip_ws rest with
      | EmptyString => Returned v
      | _ => Raised (JSONDecodeError "Extra data")
      end
  | Err e => Raised e
  | OutOfFuel => Raised (PyErr "RecursionError" "")
  end.

End Json.

(** ** [chat_interface.py]: rendering cache, metrics check, transcript *)

Module ChatInterface.

Import Json.

(** The output structure of the agent ([agent_response] of
    [agent_module.py]). *)
Record agent_response := {
  markdown_report : string;
  document_path : list string;
  page_number : string;
  document_name : string;
  pdf_path : string;
  metrics_dict : string
}.

(** [response.metrics_dict = v]. *)
Definition set_metrics_dict (response : agent_response) (v : string)
  : agent_response :=
  {| markdown_report := markdown_report response;
     document_path := document_path response;
     page_number := page_number response;
     document_name := document_name response;
     pdf_path := pdf_path response;
     metrics_dict := v |}.

(** One element of [st.session_state.chat_history]. *)
Record chat_record := {
  query : string;
  response : agent_response;
  timestamp : string
}.

(** [st.session_state], with both keys initialised. *)
Record session_state := {
  file_hashes : gmap string Z;
  chat_history : list chat_record
}.

(** What a script run shows. *)
Inductive ui_event :=
| StWrite (text : string)
| StMarkdown (body : string)
| StWarning (msg : string)
| StError (msg : string)
| StInfo (msg : string)
| StDownloadLink (file_name pdf_bytes : string)
| StSlideshow (image_paths : list string).

(** An absolute path of the file system (POSIX): the names from the root
    down, the root being the empty list. *)
Definition abs_path := list string.

(** The arguments of a call of [write_markdown_to_file], by which
    [st.cache_data] finds the call again. *)
Definition cache_key : Type := string * string * list string.

(** What a script run acts on: the session, the working directory and
    the file system of the process, the store of [st.cache_data] for
    [write_markdown_to_file] (per call, the value returned and the
    elements shown, which a later call replays), and the page. The file
    system has no symbolic links, grants every permission and has room
    for every write. *)
Record world := {
  session : session_state;
  cwd : abs_path;
  files : gmap abs_path node;
  cache : gmap cache_key (string * list ui_event);
  screen : list ui_event
}.

(** What a script run calls outside the repository: the agent, the
    clock, the interpreter's [hash] applied to
    [f"{content}_{tuple(image_paths)}"], the image loader (which handles
    its own errors and returns a source string), the Markdown-to-PDF
    renderer (the work of [MarkdownPdf], [add_section] and [save] up to
    the bytes of the document), the exception its [save] raises where
    the operating system refuses the file, and the limits of the
    interpreter at the call of [json.loads]. *)
Record runtime := {
  run_agent : string → result agent_response;
  now_isoformat : string;
  content_hash : string → list string → Z;
  image_src : string → string;
  markdown_pdf : string → result string;
  save_error : exn → exn;
  json_limits : limits
}.

Definition set_session (ss : session_state) (w : world) : world :=
  {| session := ss; cwd := cwd w; files := files w; cache := cache w;
     screen := screen w |}.

Definition set_files (fs : gmap abs_path node) (w : world) : world :=
  {| session := session w; cwd := cwd w; files := fs; cache := cache w;
     screen := screen w |}.

Definition set_cache (c : gmap cache_key (string * list ui_event))
    (w : world) : world :=
  {| session := session w; cwd := cwd w; files := files w; cache := c;
     screen := screen w |}.

Definition set_screen (scr : list ui_event) (w : world) : world :=
  {| session := session w; cwd := cwd w; files := files w; cache := cache w;
     screen := scr |}.

Definition show (e : ui_event) : M world unit := λ w,
  (set_screen (screen w ++ [e]) w, Returned ()).

Definition get_session : M world session_state := λ w,
  (w, Returned (session w)).

Definition put_session (ss : session_state) : M world unit := λ w,
  (set_session ss w, Returned ()).

(** *** Path names *)

Definition NAME_MAX : nat := 255.
Definition PATH_MAX : nat := 4096.

(** The exceptions of a system call on the path [p]. *)
Definition ENOENT (p : string) : exn :=
  PyErr "FileNotFoundError"
    ("[Errno 2] No such file or directory: '" +:+ p +:+ "'").

Definition ENOTDIR (p : string) : exn :=
  PyErr "NotADirectoryError" ("[Errno 20] Not a directory: '" +:+ p +:+ "'").

Definition EISDIR (p : string) : exn :=
  PyErr "IsADirectoryError" ("[Errno 21] Is a directory: '" +:+ p +:+ "'").

Definition ENAMETOOLONG (p : string) : exn :=
  PyErr "OSError" ("[Errno 36] File name too long: '" +:+ p +:+ "'").

Definition embedded_null_byte : exn :=
  PyErr "ValueError" "embedded null byte".

Definition has_nul (p : string) : bool :=
  existsb (Ascii.eqb (ascii_of_nat 0)) (list_ascii_of_string p).

(** The names of a path name: what stands between its slashes, the
    empty strings left out. *)
Definition components (p : string) : list string :=
  filter (λ seg, seg ≠ "") (split_slash p).

Definition is_dir (fs : gmap abs_path node) (d : abs_path) : bool :=
  match d with
  | [] => true
  | _ => match fs !! d with Some Dir => true | _ => false end
  end.

(** Enter the directories [names] one after the other, from the
    directory [cur]. *)
Fixpoint walk (fs : gmap abs_path node) (p : string) (cur : abs_path)
    (names : list string) : result abs_path :=
  match names with
  | [] => Returned cur
  | n :: rest =>
      if decide (n = ".") then walk fs p cur rest
      else if decide (n = "..") then walk fs p (removelast cur) rest
      else if NAME_MAX <? String.length n then Raised (ENAMETOOLONG p)
      else
        match fs !! (cur ++ [n]) with
        | Some Dir => walk fs p (cur ++ [n]) rest
        | Some (File _) => Raised (ENOTDIR p)
        | None => Raised (ENOENT p)
        end
  end.

(** What a path name leads to once the directories before its last name
    are entered: a directory named by a dot, by two dots or by slashes
    only, or the entry of the last name, with the mark of a trailing
    slash. *)
Inductive location :=
| AtDir (d : abs_path)
| AtName (q : abs_path) (trailing_slash : bool).

Definition locate (w : world) (p : string) : result location :=
  if has_nul p then Raised embedded_null_byte
  else if decide (p = "") then Raised (ENOENT p)
  else if PATH_MAX <=? String.length p then Raised (ENAMETOOLONG p)
  else
    let start := if startswith p "/" then [] else cwd w in
    match reverse (components p) with
    | [] => Returned (AtDir [])
    | l :: before =>
        match walk (files w) p start (reverse before) with
        | Returned d =>
            if decide (l = ".") then Returned (AtDir d)
            else if decide (l = "..") then Returned (AtDir (removelast d))
            else Returned (AtName (d ++ [l]) (endswith p "/"))
        | Raised e => Raised e
        end
    end.

(** The entry that [open(p, 'w')] creates or truncates. *)
Definition open_w (w : world) (p : string) : result abs_path :=
  match locate w p with
  | Returned (AtDir _) => Raised (EISDIR p)
  | Returned (AtName q slash) =>
      if (slash : bool) then Raised (EISDIR p)
      else if NAME_MAX <? String.length (default "" (last q))
      then Raised (ENAMETOOLONG p)
      else
        match files w !! q with
        | Some Dir => Raised (EISDIR p)
        | _ =>
            if is_dir (files w) (removelast q) then Returned q
            else Raised (ENOENT p)
        end
  | Raised e => Raised e
  end.

(** [open(p, 'rb').read()]. *)
Definition read_bytes (w : world) (p : string) : result string :=
  match locate w p with
  | Returned (AtDir _) => Raised (EISDIR p)
  | Returned (AtName q slash) =>
      if NAME_MAX <? String.length (default "" (last q))
      then Raised (ENAMETOOLONG p)
      else
        match files w !! q with
        | Some Dir => Raised (EISDIR p)
        | Some (File content) =>
            if (slash : bool) then Raised (ENOTDIR p) else Returned content
        | None => Raised (ENOENT p)
        end
  | Raised e => Raised e
  end.

(** [os.path.exists(p)]: whether [os.stat(p)] goes through. *)
Definition os_path_exists (w : world) (p : string) : bool :=
  match locate w p with
  | Returned (AtDir d) => is_dir (files w) d
  | Returned (AtName q slash) =>
      if NAME_MAX <? String.length (default "" (last q)) then false
      else
        match files w !! q with
        | Some Dir => true
        | Some (File _) => negb slash
        | None => false
        end
  | Raised _ => false
  end.

Definition path_exists (p : string) : M world bool := λ w,
  (w, Returned (os_path_exists w p)).

(** [with open(p, 'w', encoding='utf-8') as f: f.write(content)]. *)
Definition write_file (p content : string) : M world unit := λ w,
  match open_w w p with
  | Returned q => (set_files (<[q := File content]> (files w)) w, Returned ())
  | Raised e => (w, Raised e)
  end.

(** The last step of [pdf.save(p)]: the renderer writes the bytes to
    the file where the operating system lets it and raises its own
    exception where not. *)
Definition save_pdf (rt : runtime) (p pdf : string) : M world unit := λ w,
  match open_w w p with
  | Returned q => (set_files (<[q := File pdf]> (files w)) w, Returned ())
  | Raised e => (w, Raised (save_error rt e))
  end.

(** [open(p, "rb").read()]. *)
Definition read_file (p : string) : M world string := λ w,
  (w, read_bytes w p).

Definition newline : string := String (ascii_of_nat 10) EmptyString.

(** The tag appended to the content for one image. *)
Definition image_tag (image_data : string) : string :=
  newline +:+ newline +:+ "<img src='" +:+ image_data
  +:+ "' style='width: 100%; page-break-before: always;'>" +:+ newline.

(** [filename.replace('.pdf', '.md') if filename.endswith('.pdf') else
    filename]. *)
Definition md_filename_of (filename : string) : string :=
  if endswith filename ".pdf" then replace filename ".pdf" ".md"
  else filename.

(** [filename.replace('.md', '.pdf')]. *)
Definition pdf_filename_of (filename : string) : string :=
  replace filename ".md" ".pdf".

Definition already_exists_msg (filename : string) : string :=
  "File " +:+ filename +:+ " already exists with same content.".

Definition created_msg (filename : string) : string :=
  "File " +:+ filename +:+ " has been created successfully.".

Definition error_creating_msg (filename : string) (e : exn) : string :=
  "Error creating file " +:+ filename +:+ ": " +:+ exn_msg e.

(** The content both files are made from: the report followed by one
    tag per image. *)
Definition with_images (rt : runtime) (content : string)
    (image_paths : list string) : string :=
  fold_left (λ acc img_path, acc +:+ image_tag (image_src rt img_path))
    image_paths content.

(** The part of the body that writes both files. *)
Definition regenerate (rt : runtime) (content filename : string)
    (image_paths : list string) (content_hash : Z) : M world string :=
  let md_filename := md_filename_of filename in
  let pdf_filename := pdf_filename_of filename in
  ss ← get_session;
  put_session {| file_hashes := <[md_filename := content_hash]> (file_hashes ss);
                 chat_history := chat_history ss |};;
  let content := with_images rt content image_paths in
  write_file md_filename content;;
  pdf ← lift (markdown_pdf rt content);
  save_pdf rt pdf_filename pdf;;
  mret (created_msg filename).

(** The body of [write_markdown_to_file], the function that the
    decorator wraps. *)
Definition write_markdown_to_file_body (rt : runtime)
    (content filename : string) (image_paths : list string)
  : M world string :=
  try_except
    (let md_filename := md_filename_of filename in
     let pdf_filename := pdf_filename_of filename in
     let content_hash := content_hash rt content image_paths in
     ss ← get_session;
     match file_hashes ss !! md_filename with
     | Some recorded =>
         if bool_decide (recorded = content_hash) then
           pdf_exists ← path_exists pdf_filename;
           if (pdf_exists : bool) then mret (already_exists_msg filename)
           else regenerate rt content filename image_paths content_hash
         else regenerate rt content filename image_paths content_hash
     | None => regenerate rt content filename image_paths content_hash
     end)
    (λ e,
       show (StError ("Error writing file: " +:+ exn_msg e));;
       mret (error_creating_msg filename e)).

(** [@st.cache_data]: a call whose arguments are in the store returns
    the stored value and shows the stored elements again, without running
    the body; any other call runs the body and stores what it returned and
    what it showed. *)
Definition st_cache_data (key : cache_key) (body : M world string)
  : M world string := λ w,
  match cache w !! key with
  | Some (value, shown) => (set_screen (screen w ++ shown) w, Returned value)
  | None =>
      match body w with
      | (w', Returned value) =>
          (set_cache
             (<[key := (value, drop (length (screen w)) (screen w'))]>
                (cache w')) w',
           Returned value)
      | (w', Raised e) => (w', Raised e)
      end
  end.

(** [write_markdown_to_file], as its callers see it. *)
Definition write_markdown_to_file (rt : runtime) (content filename : string)
    (image_paths : list string) : M world string :=
  st_cache_data (content, filename, image_paths)
    (write_markdown_to_file_body rt content filename image_paths).

(** [download_button]: write the files, read the PDF back, return the
    link (kept as the file name and the bytes it embeds). *)
Definition download_button (rt : runtime)
    (object_to_download download_filename : string)
    (document_path : list string) : M world ui_event :=
  write_markdown_to_file rt object_to_download download_filename
    document_path;;
  pdf_bytes ← read_file (replace download_filename "assets" "");
  mret (StDownloadLink (replace download_filename "assets" "") pdf_bytes).

(** [try: body  except cls as e: handler(e)]: other exceptions pass. *)
Definition try_except_class {A} (cls : string) (body : M world A)
    (handler : exn → M world A) : M world A := λ w,
  match body w with
  | (w', Returned a) => (w', Returned a)
  | (w', Raised e) =>
      if bool_decide (exn_class e = cls) then handler e w'
      else (w', Raised e)
  end.

Definition empty_metrics : string := "{}".

Definition invalid_metrics_warning (e : exn) : ui_event :=
  StWarning ("Invalid metrics format in response: " +:+ exn_msg e).

(** The metrics check of [main]: every [agent_response] has the
    attribute, and it is a [str]. *)
Definition validate_metrics (rt : runtime) (response : agent_response)
  : M world agent_response :=
  try_except_class "JSONDecodeError"
    (lift (json_loads (json_limits rt)
             (replace (metrics_dict response) "'" (String quote "")));;
     mret response)
    (λ e,
       show (invalid_metrics_warning e);;
       mret (set_metrics_dict response empty_metrics)).

(** [get_agent_response]: [None] after an exception of the agent. *)
Definition get_agent_response (rt : runtime) (user_query : string)
  : M world (option agent_response) :=
  try_except
    (response ← lift (run_agent rt user_query); mret (Some response))
    (λ e,
       show (StError ("Error in agent response: " +:+ exn_msg e));;
       mret None).

(** [st.session_state.chat_history.insert(0, record)]. *)
Definition insert_front (record : chat_record) : M world unit :=
  ss ← get_session;
  put_session {| file_hashes := file_hashes ss;
                 chat_history := record :: chat_history ss |}.

(** The [if user_query:] block of [main]. The value tells whether
    [st.rerun()] was reached; a rerun ends the script run. *)
Definition process_query (rt : runtime) (user_query : string)
  : M world bool :=
  try_except
    (response ← get_agent_response rt user_query;
     match response with
     | Some response =>
         response ← validate_metrics rt response;
         insert_front {| query := user_query; response := response;
                         timestamp := now_isoformat rt |};;
         mret true
     | None => mret false
     end)
    (λ e,
       show (StError ("Error processing query: " +:+ exn_msg e));;
       mret false).

Definition separator : string := "--------------------------------".

(** The body of [for idx, chat in enumerate(chat_history)]; calls that
    only emit fixed markup are left out. *)
Definition display_chat (rt : runtime) (chat : chat_record) : M world unit :=
  show (StWrite (query chat));;
  try_except
    (let r := response chat in
     show (StMarkdown
             (replace (markdown_report r) "![](assets/vizyx_logo.png)" ""));;
     (if bool_decide (pdf_path r = "") then mret ()
      else
        link ← download_button rt (replace (markdown_report r) "output/" "")
                 (replace (pdf_path r) "output/" "") (document_path r);
        show link);;
     show (StMarkdown separator);;
     match document_path r with
     | [] => mret ()
     | image_paths => show (StSlideshow image_paths)
     end)
    (λ e, show (StWarning ("Error displaying chat response: "
                           +:+ exn_class e +:+ ": " +:+ exn_msg e)));;
  show (StMarkdown separator).

Fixpoint display_all (rt : runtime) (chats : list chat_record)
  : M world unit :=
  match chats with
  | [] => mret ()
  | chat :: rest => display_chat rt chat;; display_all rt rest
  end.

(** One execution of [main] once the page is set up: the turn, if the
    chat input holds a query, then the transcript. The list iterated is
    the session's transcript when the loop starts. *)
Definition main (rt : runtime) (user_query : option string)
  : M world unit :=
  let turn : M world bool :=
    match user_query with
    | Some q =>
        if bool_decide (q = "") then mret false else process_query rt q
    | None => mret false
    end in
  rerun ← turn;
  if (rerun : bool) then mret ()
  else ss ← get_session; display_all rt (chat_history ss).

(** A step that leaves the transcript as it found it. *)
Definition keeps_history {A} (m : M world A) : Prop :=
  ∀ w w' r, m w = (w', r) →
    chat_history (session w') = chat_history (session w).

End ChatInterface.

(** ** Concrete inputs used in the examples *)

Module Sample.

(** A stored page of document [doc], with the naming of the index. *)
Definition page (doc n : string) (s : float) : AgentModule.match_ :=
  {| AgentModule.m_id := doc +:+ "#" +:+ n;
     AgentModule.m_score := s;
     AgentModule.m_metadata :=
       {| AgentModule.md_document_name := doc +:+ "_page_" +:+ n +:+ ".png";
          AgentModule.md_document_path :=
            "documents\" +:+ doc +:+ "\" +:+ doc +:+ "_page_" +:+ n +:+ ".png";
          AgentModule.md_page_number := "page_" +:+ n;
          AgentModule.md_image_description :=
            "text of " +:+ doc +:+ ", page " +:+ n |} |}.

(** Both services answer; the index returns [ms]. *)
Definition answering (ms : list AgentModule.match_) : AgentModule.services :=
  {| AgentModule.embed_query := λ _, Returned [0.5%float];
     AgentModule.index_query := λ _, Returned ms |}.

(** The embedding service answers, the index raises. *)
Definition index_down : AgentModule.services :=
  {| AgentModule.embed_query := λ _, Returned [0.5%float];
     AgentModule.index_query :=
       λ _, Raised (PyErr "PineconeException" "index unreachable") |}.

(** Three hits in descending score: two documents pass the threshold,
    one page does not. *)
Definition three_hits : list AgentModule.match_ :=
  [ page "report" "03" 0.5%float;
    page "budget" "07" 0.25%float;
    page "annex" "11" 0.0625%float ].

(** PDF libraries that give two pages for every file. *)
Definition two_pages : PdfToPng.pdf_tools :=
  {| PdfToPng.pdf_num_pages := λ _, Returned 2;
     PdfToPng.convert_from_path := λ _, Returned ["page one"; "page two"] |}.

Definition notes_pdf : PdfToPng.path := ["documents"; "notes: v2.pdf"].

Definition notes_world : PdfToPng.world :=
  {| PdfToPng.fs := {[ ["documents"] := Dir; notes_pdf := File "%PDF" ]};
     PdfToPng.stdout := [] |}.

(** A documents directory in which the stem of one PDF is the name of
    another: [x.pdf] and [x.pdf.pdf], and a third file after them. *)
Definition shadowed_pdfs : list PdfToPng.path :=
  [ ["documents"; "x.pdf"]; ["documents"; "x.pdf.pdf"];
    ["documents"; "later.pdf"] ].

Definition shadowed_world : PdfToPng.world :=
  {| PdfToPng.fs :=
       {[ ["documents"] := Dir;
          ["documents"; "x.pdf"] := File "%PDF";
          ["documents"; "x.pdf.pdf"] := File "%PDF";
          ["documents"; "later.pdf"] := File "%PDF" ]};
     PdfToPng.stdout := [] |}.


Definition posix (pdf_files : list PdfToPng.path) : PdfToPng.platform :=
  {| PdfToPng.is_windows := false; PdfToPng.poppler_found := true;
     PdfToPng.glob_pdf := pdf_files |}.

(** An agent answer with the given metrics string. *)
Definition answer (metrics : string) : ChatInterface.agent_response :=
  {| ChatInterface.markdown_report := "# GDP growth";
     ChatInterface.document_path := ["documents/report/report_page_03.png"];
     ChatInterface.page_number := "['03']";
     ChatInterface.document_name := "report.pdf";
     ChatInterface.pdf_path := "gdp.pdf";
     ChatInterface.metrics_dict := metrics |}.

(** The limits of an interpreter with its default settings, called with
    room for 990 nested arrays and objects. *)
Definition default_limits : Json.limits :=
  {| Json.int_max_str_digits := 4300; Json.recursion_budget := 990 |}.

(** A runtime with the given agent and renderer. *)
Definition runtime_with
    (agent : string → result ChatInterface.agent_response)
    (renderer : string → result string) : ChatInterface.runtime :=
  {| ChatInterface.run_agent := agent;
     ChatInterface.now_isoformat := "2025-01-01T00:00:00";
     ChatInterface.content_hash :=
       λ content paths, Z.of_nat (String.length content + length paths);
     ChatInterface.image_src := λ p, "data:" +:+ p;
     ChatInterface.markdown_pdf := renderer;
     ChatInterface.save_error := λ e, PyErr "RuntimeError" (exn_msg e);
     ChatInterface.json_limits := default_limits |}.

Definition agent_saying (metrics : string) : ChatInterface.runtime :=
  runtime_with (λ _, Returned (answer metrics))
    (λ content, Returned ("%PDF " +:+ content)).

(** The directory the application runs in. *)
Definition app_dir : ChatInterface.abs_path := ["srv"; "app"].

(** A new session in an empty application directory: no hash recorded,
    an empty transcript, nothing in the store of [st.cache_data]. *)
Definition fresh : ChatInterface.world :=
  {| ChatInterface.session :=
       {| ChatInterface.file_hashes := ∅; ChatInterface.chat_history := [] |};
     ChatInterface.cwd := app_dir;
     ChatInterface.files := {[ ["srv"] := Dir; app_dir := Dir ]};
     ChatInterface.cache := ∅;
     ChatInterface.screen := [] |}.

End Sample.

(** ** What a step of the chat script may do to its world *)

Module ChatFrame.

Import ChatInterface.

(** A step all of whose executions, returning or raising, take a world
    to one related to it by [R]. *)
Definition respects {A} (R : relation world) (m : M world A) : Prop :=
  ∀ w w' r, m w = (w', r) → R w w'.

(** The texts of the [st.write] calls among the events of a page. *)
Definition written (evs : list ui_event) : list string :=
  omap (λ e, match e with StWrite text => Some text | _ => None end) evs.

(** No entry of the store of [st.cache_data] replays an [st.write]: so
    it is for every entry that [write_markdown_to_file] makes, whose body
    shows errors only. *)
Definition replays_no_write (w : world) : Prop :=
  ∀ key value shown, cache w !! key = Some (value, shown) → written shown = [].

(** The page is extended by events that are no [st.write], and the
    store keeps replaying none. *)
Definition screen_extends (w w' : world) : Prop :=
  replays_no_write w →
  replays_no_write w'
  ∧ ∃ evs, screen w' = screen w ++ evs ∧ written evs = [].

(** No file, no recorded hash and no record of the transcript is taken
    away. *)
Definition nothing_removed (w w' : world) : Prop :=
  (∀ p, is_Some (files w !! p) → is_Some (files w' !! p))
  ∧ (∀ k, is_Some (file_hashes (session w) !! k)
          → is_Some (file_hashes (session w') !! k))
  ∧ chat_history (session w) `suffix_of` chat_history (session w').

End ChatFrame.

(** ** Further inputs used in the examples *)

Module Scenario.

(** A documents directory in which the folder of [notes: v2.pdf] is
    there and the name of its second page image is taken by a
    directory. *)
Definition blocked_world : PdfToPng.world :=
  {| PdfToPng.fs :=
       {[ ["documents"] := Dir;
          Sample.notes_pdf := File "%PDF";
          ["documents"; "notes_ v2"] := Dir;
          ["documents"; "notes_ v2"; "notes_ v2_page_2.png"] := Dir ]};
     PdfToPng.stdout := [] |}.

(** PDF libraries that read the page count and fail to convert. *)
Definition unreadable : PdfToPng.pdf_tools :=
  {| PdfToPng.pdf_num_pages := λ _, Returned 2;
     PdfToPng.convert_from_path :=
       λ _, Raised (PyErr "PDFSyntaxError" "no pages") |}.

(** Two documents whose stems differ in an illegal character only. *)
Definition colon_pdf : PdfToPng.path := ["documents"; "a:b.pdf"].
Definition query_pdf : PdfToPng.path := ["documents"; "a?b.pdf"].

(** PDF libraries that give [a:b.pdf] two pages and any other file
    one. *)
Definition by_name : PdfToPng.pdf_tools :=
  {| PdfToPng.pdf_num_pages :=
       λ p, Returned (if decide (p = colon_pdf) then 2 else 1);
     PdfToPng.convert_from_path :=
       λ p, Returned (if decide (p = colon_pdf) then ["A1"; "A2"]
                      else ["B1"]) |}.

Definition twins_world : PdfToPng.world :=
  {| PdfToPng.fs :=
       {[ ["documents"] := Dir;
          colon_pdf := File "%PDF"; query_pdf := File "%PDF" ]};
     PdfToPng.stdout := [] |}.


(** A runtime whose renderer fails. *)
Definition renderer_down : ChatInterface.runtime :=
  Sample.runtime_with (λ _, Returned (Sample.answer "{}"))
    (λ _, Raised (PyErr "RuntimeError" "renderer failed")).

(** A runtime whose agent fails. *)
Definition agent_down : ChatInterface.runtime :=
  Sample.runtime_with
    (λ _, Raised (PyErr "ModelHTTPError" "model unreachable"))
    (λ content, Returned ("%PDF " +:+ content)).

(** A session in which an older report was rendered to [gdp.pdf]. *)
Definition older_report : ChatInterface.world :=
  {| ChatInterface.session :=
       {| ChatInterface.file_hashes := {[ "gdp.md" := 3%Z ]};
          ChatInterface.chat_history := [] |};
     ChatInterface.cwd := Sample.app_dir;
     ChatInterface.files :=
       {[ ["srv"] := Dir; Sample.app_dir := Dir;
          Sample.app_dir ++ ["gdp.md"] := File "old";
          Sample.app_dir ++ ["gdp.pdf"] := File "%PDF old" ]};
     ChatInterface.cache := ∅;
     ChatInterface.screen := [] |}.

(** A session with two stored turns. *)
Definition two_stored : ChatInterface.world :=
  {| ChatInterface.session :=
       {| ChatInterface.file_hashes := ∅;
          ChatInterface.chat_history :=
            [ {| ChatInterface.query := "second";
                 ChatInterface.response := Sample.answer "{}";
                 ChatInterface.timestamp := "2025-01-01T00:00:01" |};
              {| ChatInterface.query := "first";
                 ChatInterface.response := Sample.answer "{'GDP': '3.2%'}";
                 ChatInterface.timestamp := "2025-01-01T00:00:00" |} ] |};
     ChatInterface.cwd := Sample.app_dir;
     ChatInterface.files := {[ ["srv"] := Dir; Sample.app_dir := Dir ]};
     ChatInterface.cache := ∅;
     ChatInterface.screen := [] |}.

(** A metrics string that is one integer of 4301 digits. *)
Definition long_integer : string :=
  string_of_list_ascii (repeat "7"%char 4301).

(** A metrics string of 1000 nested empty arrays. *)
Definition deep_array : string :=
  string_of_list_ascii (repeat "["%char 1000 ++ repeat "]"%char 1000).

End Scenario.

(** * Properties *)

(** ** Strings and scans *)

Section StringFacts.

Implicit Types (s t u p : string) (a c : ascii).

Lemma append_cons a s t : String a s +:+ t = String a (s +:+ t).
Proof. reflexivity. Qed.

Lemma append_assoc s t u : (s +:+ t) +:+ u = s +:+ t +:+ u.
Proof.
  induction s as [|a s IH]; [done|].
  by rewrite !append_cons, IH.
Qed.

Lemma length_append s t :
  String.length (s +:+ t) = String.length s + String.length t.
Proof.
  induction s as [|a s IH]; [done|].
  rewrite append_cons. simpl. by rewrite IH.
Qed.

Lemma append_inj_r s t u : s +:+ u = t +:+ u → s = t.
Proof.
  revert t. induction s as [|a s IH]; intros [|b t] H; [done| | |].
  - apply (f_equal String.length) in H.
    rewrite !length_append in H. simpl in H. lia.
  - apply (f_equal String.length) in H.
    rewrite !length_append in H. simpl in H. lia.
  - rewrite !append_cons in H. injection H as -> H. f_equal. by apply IH.
Qed.

Lemma strip_prefix_append p s : strip_prefix p (p +:+ s) = Some s.
Proof.
  induction p as [|a p IH]; [done|].
  rewrite append_cons. simpl. by rewrite Ascii.eqb_refl.
Qed.

Lemma strip_prefix_length p s t :
  strip_prefix p s = Some t → String.length s = String.length p + String.length t.
Proof.
  revert s. induction p as [|a p IH]; intros s H; simpl in *;
    [by simplify_eq|].
  destruct s as [|c s]; [done|]. destruct (Ascii.eqb a c); [|done].
  simpl. f_equal. by apply IH.
Qed.

Lemma startswith_append p s : startswith (p +:+ s) p = true.
Proof. unfold startswith. by rewrite strip_prefix_append. Qed.

Lemma str_of_nat_inj : Inj (=) (=) str_of_nat.
Proof.
  intros n m H. unfold str_of_nat in H.
  apply (f_equal NilEmpty.uint_of_string) in H.
  rewrite !NilEmpty.usu in H. injection H as H.
  apply (f_equal Nat.of_uint) in H.
  by rewrite !DecimalNat.Unsigned.of_to in H.
Qed.

(** A scan passes over a prefix none of whose characters can start a
    match. *)
Lemma sub_scan_skip (first : char_class) pat repl (pre tail : string) fuel :
  (∀ i c, String.get i pre = Some c → first c = false) →
  sub_scan (String.length pre + fuel) (first :: pat) repl (pre +:+ tail)
  = pre +:+ sub_scan fuel (first :: pat) repl tail.
Proof.
  induction pre as [|a pre IH]; intros Hpre; [done|].
  rewrite !append_cons. simpl. rewrite (Hpre 0 a eq_refl).
  f_equal. apply IH. intros i c Hi. by apply (Hpre (S i)).
Qed.

(** A scan with a pattern of one class and a replacement of one
    character rewrites the string character by character. *)
Lemma sub_scan_class (cls : char_class) (r : ascii) s fuel :
  String.length s ≤ fuel →
  ∀ i, String.get i (sub_scan fuel [cls] (String r "") s)
       = (λ c, if cls c then r else c) <$> String.get i s.
Proof.
  revert fuel. induction s as [|c s IH]; intros [|fuel] Hf i; simpl in *;
    try done; try lia.
  destruct (cls c) eqn:Hc.
  - rewrite append_cons. change ("" +:+ ?x) with x.
    destruct i; simpl; [by rewrite Hc|]. apply IH. lia.
  - destruct i; simpl; [by rewrite Hc|]. apply IH. lia.
Qed.

End StringFacts.

(** ** The retrieval tool *)

Section RetrievalFacts.

Import AgentModule.

Implicit Types (sv : services) (ms : list match_) (m : match_).

(** The tool's outcome in terms of what the two services answer. *)
Lemma run_retreive sv query :
  run sv (retreive_data_from_document query)
  = match embed_query sv query with
    | Returned v =>
        match index_query sv (index_request v) with
        | Returned ms => Returned (assemble ms)
        | Raised e => Raised e
        end
    | Raised e => Raised e
    end.
Proof. simpl. repeat case_match; done. Qed.

Lemma elem_of_evidence_filter ms m :
  m ∈ evidence_filter ms
  ↔ m ∈ ms ∧ PrimFloat.ltb score_threshold (m_score m) = true.
Proof. unfold evidence_filter. rewrite list_elem_of_filter. tauto. Qed.

Lemma assemble_nil ms :
  evidence_filter ms = [] → assemble ms = RetStr no_relevant_information.
Proof. unfold assemble. by intros ->. Qed.

Lemma assemble_cons ms top rest :
  evidence_filter ms = top :: rest →
  assemble ms = RetDict {|
    document_name := derive_document_name (md_document_name (m_metadata top));
    document_path := path_of <$> top :: rest;
    page_number := page_number_of <$> top :: rest;
    page_description :=
      citation (derive_document_name (md_document_name (m_metadata top)))
        <$> top :: rest;
    score := m_score top;
    id := m_id top |}.
Proof. unfold assemble. by intros ->. Qed.

Lemma assemble_dict ms d :
  assemble ms = RetDict d →
  ∃ top rest, evidence_filter ms = top :: rest.
Proof.
  unfold assemble. destruct (evidence_filter ms) as [|top rest]; [done|].
  eauto.
Qed.

Lemma StronglySorted_filter {A} (R : relation A) (P : A → Prop)
    `{!∀ x, Decision (P x)} (l : list A) :
  StronglySorted R l → StronglySorted R (filter P l).
Proof.
  induction 1 as [|x l Hl IH Hx]; [constructor|].
  rewrite filter_cons. case_decide; [|done].
  constructor; [done|].
  apply Forall_forall. intros y [_ Hy]%list_elem_of_filter.
  by eapply Forall_forall in Hx.
Qed.

Lemma citation_source dn m line :
  line ∈ citation dn m →
  startswith line ("Source: " +:+ dn +:+ ", Page Number: ") = true.
Proof.
  unfold citation. intros ->%list_elem_of_singleton.
  rewrite <-(append_assoc dn ", Page Number: "), <-(append_assoc "Source: ").
  rewrite <-(append_assoc "Source: " dn).
  apply startswith_append.
Qed.

(** The name the converter gives a page with a two-digit number is
    rewritten to the document's, for a stem without underscore. *)
Lemma derive_document_name_two_digits (stem : string) (d1 d2 : ascii) :
  (∀ i c, String.get i stem = Some c → c ≠ "_"%char) →
  digit d1 = true → digit d2 = true →
  derive_document_name (stem +:+ "_page_" +:+ String d1 (String d2 ".png"))
  = stem +:+ ".pdf".
Proof.
  intros Hs H1 H2. unfold derive_document_name, re_sub.
  rewrite length_append.
  change page_suffix_pattern
    with (lit "_" :: lits "page_" ++ [digit; digit] ++ lits ".png").
  rewrite sub_scan_skip.
  - simpl. by rewrite H1, H2.
  - intros i c Hi. unfold lit. apply Ascii.eqb_neq. intros <-.
    by eapply Hs.
Qed.

Example derive_document_name_padded :
  derive_document_name "report_page_03.png" = "report.pdf".
Proof. reflexivity. Qed.

(** C1 (defect of the code). The derived document name is meant to strip
    the per-page suffix [_page_<n>.png] for every page number [n], but the
    pattern asks for exactly two digits: the name the corpus preparer gives
    to page 1 of [report.pdf], [report_page_1.png], comes back unchanged
    instead of [report.pdf], and so does a name with a three-digit page
    number. *)
Theorem derive_document_name_misses_page_1 :
  PdfToPng.image_name
    (PdfToPng.sanitize_filename (PdfToPng.stem "report.pdf")) 1
  = "report_page_1.png"
  ∧ derive_document_name "report_page_1.png" = "report_page_1.png"
  ∧ derive_document_name "report_page_1.png" ≠ "report.pdf"
  ∧ derive_document_name "report_page_100.png" = "report_page_100.png".
Proof. split_and!; [done..| |done]. vm_compute. discriminate. Qed.

(** C2, as stated, fails: the claim keeps a match whose score equals the
    threshold. A single match whose score is exactly the threshold is not
    below it, yet the filter discards it and the tool returns the
    sentinel. *)
Lemma score_at_threshold_discarded :
  let m := Sample.page "report" "03" score_threshold in
  PrimFloat.ltb (m_score m) score_threshold = false
  ∧ evidence_filter [m] = []
  ∧ run (Sample.answering [m]) (retreive_data_from_document "growth?")
    = Returned (RetStr no_relevant_information).
Proof. split_and!; reflexivity. Qed.

(** C2 (amended). When both services answer, the tool embeds the query
    and asks the index once, for the 3 nearest vectors with metadata; the
    filter keeps exactly the matches whose score is strictly above the
    threshold 0.1, so a match whose score equals 0.1 is discarded; and the
    tool returns the sentinel exactly when no match survives. *)
Theorem evidence_filter_strictly_above sv query v ms :
  embed_query sv query = Returned v →
  index_query sv (index_request v) = Returned ms →
  calls sv (retreive_data_from_document query)
  = [ CallEmbed query;
      CallIndex {| vector := v; top_k := 3; include_metadata := true |} ]
  ∧ (∀ m, m ∈ evidence_filter ms
          ↔ m ∈ ms ∧ PrimFloat.ltb score_threshold (m_score m) = true)
  ∧ (∀ m, m_score m = score_threshold → m ∉ evidence_filter ms)
  ∧ (evidence_filter ms = []
     ↔ run sv (retreive_data_from_document query)
       = Returned (RetStr no_relevant_information)).
Proof.
  intros Hv Hms. split_and!.
  - simpl. by rewrite Hv, Hms.
  - apply elem_of_evidence_filter.
  - intros m Hm [_ Hlt]%elem_of_evidence_filter. by rewrite Hm in Hlt.
  - rewrite run_retreive, Hv, Hms. split.
    + by intros ->%assemble_nil.
    + intros [= H]. unfold assemble in H. by destruct (evidence_filter ms).
Qed.

Lemma evidence_filter_strictly_above_witness :
  calls (Sample.answering Sample.three_hits)
    (retreive_data_from_document "growth?")
  = [ CallEmbed "growth?";
      CallIndex {| vector := [0.5%float]; top_k := 3;
                   include_metadata := true |} ].
Proof.
  apply (evidence_filter_strictly_above
           (Sample.answering Sample.three_hits) "growth?" [0.5%float]
           Sample.three_hits); reflexivity.
Defined.

(** C3. A failure of the embedding service or of the index service
    during retrieval is raised to the caller with the service's exception;
    the outcome is not the "no relevant information" result. *)
Theorem service_failure_is_raised sv query e :
  embed_query sv query = Raised e
  ∨ (∃ v, embed_query sv query = Returned v
          ∧ index_query sv (index_request v) = Raised e) →
  run sv (retreive_data_from_document query) = Raised e
  ∧ run sv (retreive_data_from_document query)
    ≠ Returned (RetStr no_relevant_information).
Proof.
  intros H.
  assert (run sv (retreive_data_from_document query) = Raised e) as ->; [|done].
  rewrite run_retreive. by destruct H as [->|(v & -> & ->)].
Qed.

Lemma service_failure_is_raised_witness :
  run Sample.index_down (retreive_data_from_document "growth?")
  = Raised (PyErr "PineconeException" "index unreachable")
  ∧ run Sample.index_down (retreive_data_from_document "growth?")
    ≠ Returned (RetStr no_relevant_information).
Proof.
  apply (service_failure_is_raised Sample.index_down "growth?").
  right. exists [0.5%float]. split; reflexivity.
Defined.

(** C4. When at least one match survives, the surviving matches are a
    subsequence of the matches as the index returned them, so their
    relative order is kept and a response in descending score gives a
    bundle in descending score; the lists of the bundle follow that
    order. *)
Theorem evidence_order_preserved ms d :
  assemble ms = RetDict d →
  evidence_filter ms `sublist_of` ms
  ∧ (StronglySorted ranked_before ms
     → StronglySorted ranked_before (evidence_filter ms))
  ∧ document_path d = path_of <$> evidence_filter ms
  ∧ page_number d = page_number_of <$> evidence_filter ms
  ∧ page_description d = citation (document_name d) <$> evidence_filter ms.
Proof.
  intros H. split; [apply sublist_filter|].
  split; [apply StronglySorted_filter|].
  destruct (assemble_dict _ _ H) as (top & rest & Hf).
  rewrite (assemble_cons _ _ _ Hf) in H. rewrite Hf. by simplify_eq.
Qed.

Lemma evidence_order_preserved_witness :
  ∃ d, assemble Sample.three_hits = RetDict d
       ∧ page_number d = ["03"; "07"].
Proof.
  eexists. split; [reflexivity|].
  rewrite (proj1 (proj2 (proj2 (proj2
             (evidence_order_preserved Sample.three_hits _ eq_refl))))).
  reflexivity.
Defined.

(** C10. When at least one match survives, the returned document name is
    derived from the top match, the returned score and id are those of
    the top match, and the page descriptions are, in the order of the
    surviving matches, one entry per match that holds the single line
    [Source: <that document name>, Page Number: <stored page number>,]
    followed by a line feed, [ Content: <stored description>] and a line
    feed: the name after [Source:] is the one derived from the top match,
    whichever document the cited match belongs to. *)
Theorem citations_name_top_document ms top rest :
  evidence_filter ms = top :: rest →
  ∃ d, assemble ms = RetDict d
    ∧ document_name d
      = derive_document_name (md_document_name (m_metadata top))
    ∧ score d = m_score top
    ∧ id d = m_id top
    ∧ page_description d
      = (λ m, [ "Source: "
                +:+ derive_document_name (md_document_name (m_metadata top))
                +:+ ", Page Number: " +:+ md_page_number (m_metadata m)
                +:+ "," +:+ String (ascii_of_nat 10) " Content: "
                +:+ md_image_description (m_metadata m)
                +:+ String (ascii_of_nat 10) "" ]) <$> top :: rest.
Proof.
  intros H. eexists. split; [by apply assemble_cons|]. simpl.
  split_and!; try done.
Qed.

Lemma citations_name_top_document_witness :
  ∃ d, assemble Sample.three_hits = RetDict d
    ∧ document_name d = "report.pdf"
    ∧ page_description d
      = [ [ "Source: report.pdf, Page Number: page_03,"
            +:+ String (ascii_of_nat 10) " Content: text of report, page 03"
            +:+ String (ascii_of_nat 10) "" ];
          [ "Source: report.pdf, Page Number: page_07,"
            +:+ String (ascii_of_nat 10) " Content: text of budget, page 07"
            +:+ String (ascii_of_nat 10) "" ] ].
Proof.
  destruct (citations_name_top_document Sample.three_hits
              (Sample.page "report" "03" 0.5%float)
              [Sample.page "budget" "07" 0.25%float] eq_refl)
    as (d & Hd & Hname & _ & _ & Hdesc).
  exists d. split; [done|]. split; [done|]. rewrite Hdesc.
  reflexivity.
Defined.

End RetrievalFacts.

(** ** The corpus preparer *)

Section ConverterFacts.

Import PdfToPng.

Implicit Types (w : world) (p out : path) (tools : pdf_tools).

Lemma bind_run {W A B} (m : M W A) (k : A → M W B) (w : W) :
  (m ≫= k) w
  = match m w with
    | (w', Returned a) => k a w'
    | (w', Raised e) => (w', Raised e)
    end.
Proof. reflexivity. Qed.

Lemma print_run line w :
  print line w
  = ({| fs := fs w; stdout := stdout w ++ [line] |}, Returned ()).
Proof. reflexivity. Qed.

(** *** Names *)

Lemma sanitize_filename_get (s : string) (i : nat) :
  String.get i (sanitize_filename s)
  = (λ c, if illegal_char c then "_"%char else c) <$> String.get i s.
Proof. by apply sub_scan_class. Qed.

Lemma image_name_inj san : Inj (=) (=) (image_name san).
Proof.
  intros n m H. unfold image_name in H.
  apply (inj (String.append san)) in H.
  apply (inj (String.append "_page_")) in H.
  apply append_inj_r in H. by apply str_of_nat_inj.
Qed.

Lemma image_name_proper san n :
  ¬ (image_name san n = "" ∨ image_name san n = ".").
Proof.
  intros H.
  assert (String.length (image_name san n) ≤ 1) as Hlen
    by (destruct H as [-> | ->]; simpl; lia).
  unfold image_name in Hlen. rewrite !length_append in Hlen.
  simpl in Hlen. lia.
Qed.

Lemma path_div_image out san n :
  path_div out (image_name san n) = out ++ [image_name san n].
Proof.
  unfold path_div.
  case_decide as H; [by apply image_name_proper in H|done].
Qed.



Lemma success_line_ne_error_line pdf_name pdf_name' e :
  success_line pdf_name ≠ error_line pdf_name' e.
Proof. discriminate. Qed.

(** *** File-system steps *)

Lemma image_save_inv img p w w' r :
  image_save img p w = (w', r) →
  (r = Returned () ∧ fs w' = <[p := File img]> (fs w)
   ∧ stdout w' = stdout w)
  ∨ (∃ e, r = Raised e ∧ w' = w).
Proof.
  unfold image_save. intros H. repeat case_match; simplify_eq; eauto.
Qed.

Lemma mkdir_exist_ok_inv p w w' r :
  mkdir_exist_ok p w = (w', r) →
  (r = Returned () ∧ fs w' !! p = Some Dir ∧ stdout w' = stdout w
   ∧ ∀ q, q ≠ p → fs w' !! q = fs w !! q)
  ∨ (∃ e, r = Raised e ∧ w' = w
       ∧ (exn_class e = "FileExistsError"
          ∨ exn_class e = "FileNotFoundError")).
Proof.
  unfold mkdir_exist_ok. intros H.
  repeat case_match; simplify_eq; eauto 8; left; simpl;
    split_and!; try done.
  - apply lookup_insert_eq.
  - intros q Hq. by rewrite lookup_insert_ne.
Qed.

(** *** The page loop *)

(** Saving touches no path but those of the page images. *)
Lemma save_images_frame images out san i w w' r p :
  save_images out san i images w = (w', r) →
  (∀ j, j < length images → p ≠ out ++ [image_name san (i + j + 1)]) →
  fs w' !! p = fs w !! p.
Proof.
  revert i w. induction images as [|img rest IH]; intros i w H Hp.
  - injection H as <- _. done.
  - simpl in H. rewrite bind_run in H.
    destruct (image_save img _ w) as [w1 r1] eqn:Hsave.
    apply image_save_inv in Hsave as [(-> & Hfs & _)|(e & -> & ->)];
      [|by simplify_eq].
    rewrite bind_run, print_run in H. apply IH in H.
    + rewrite H. simpl.
      rewrite Hfs, path_div_image, lookup_insert_ne; [done|].
      specialize (Hp 0). rewrite Nat.add_0_r in Hp. intros <-.
      apply Hp; [simpl; lia|done].
    + intros j Hj. replace (S i + j + 1) with (i + S j + 1) by lia.
      apply Hp. simpl. lia.
Qed.

(** After a page loop that went through, every image is at its path:
    no later page overwrites an earlier one. *)
Lemma save_images_saved images out san i w w' :
  save_images out san i images w = (w', Returned ()) →
  ∀ j img, images !! j = Some img →
    fs w' !! (out ++ [image_name san (i + j + 1)]) = Some (File img).
Proof.
  revert i w. induction images as [|img rest IH]; intros i w H j img' Hj;
    [done|]. simpl in H. rewrite bind_run in H.
  destruct (image_save img _ w) as [w1 r1] eqn:Hsave.
  apply image_save_inv in Hsave as [(-> & Hfs & _)|(e & -> & ->)];
    [|by simplify_eq].
  rewrite bind_run, print_run in H.
  destruct j as [|j]; simpl in Hj.
  - simplify_eq. erewrite save_images_frame; [|done|].
    + simpl. rewrite Hfs, path_div_image, Nat.add_0_r.
      apply lookup_insert_eq.
    + intros j _ [=Heq%image_name_inj]%app_inv_head. lia.
  - replace (i + S j + 1) with (S i + j + 1) by lia. by eapply IH.
Qed.


(** The guarded block changes the file system through the page loop
    only. *)
Lemma convert_pages_fs tools pdf_path out pdf_name san images w w' r :
  convert_from_path tools pdf_path = Returned images →
  convert_pages tools pdf_path out pdf_name san w = (w', r) →
  (fs w' = fs w ∧ ∃ e, r = Raised e)
  ∨ ∃ w1 w2 r2, fs w1 = fs w
      ∧ save_images out san 0 images w1 = (w2, r2)
      ∧ fs w' = fs w2
      ∧ (r = Returned () → r2 = Returned ()).
Proof.
  intros Himgs H. unfold convert_pages in H.
  rewrite bind_run in H. unfold lift at 1 in H.
  destruct (pdf_num_pages tools pdf_path) as [n|e];
    [|left; simplify_eq; by eauto].
  rewrite bind_run, print_run, bind_run in H. unfold lift at 1 in H.
  rewrite Himgs, bind_run in H.
  destruct (save_images out san 0 images _) as [w2 [[]|e]] eqn:Hsave.
  - rewrite print_run in H. injection H as <- <-.
    right. eexists _, w2, _. split_and!; [|exact Hsave|..]; done.
  - injection H as <- <-.
    right. eexists _, w2, _. split_and!; [|exact Hsave|..]; done.
Qed.

(** *** One document *)

(** The loop body either stops at [mkdir] with its exception, or
    returns: after the guarded block went through, or after the exception
    of the guarded block was printed. *)
Lemma process_pdf_inv tools pdf_path w w' r :
  let pdf_name := stem (name pdf_path) in
  let san := sanitize_filename pdf_name in
  let out := path_div DOCUMENTS_DIR san in
  process_pdf tools pdf_path w = (w', r) →
  (∃ e, mkdir_exist_ok out w = (w, Raised e) ∧ r = Raised e ∧ w' = w
      ∧ (exn_class e = "FileExistsError"
         ∨ exn_class e = "FileNotFoundError"))
  ∨ (∃ w1, mkdir_exist_ok out w = (w1, Returned ()) ∧ r = Returned ()
      ∧ let w2 := {| fs := fs w1;
                     stdout := stdout w1 ++ [processing_line pdf_name] |} in
        convert_pages tools pdf_path out pdf_name san w2
        = (w', Returned ())
        ∨ ∃ w3 e, convert_pages tools pdf_path out pdf_name san w2
                  = (w3, Raised e)
            ∧ w' = {| fs := fs w3;
                      stdout := stdout w3 ++ [error_line pdf_name e] |}).
Proof.
  intros pdf_name san out H. unfold process_pdf in H.
  fold pdf_name san out in H. rewrite bind_run in H.
  destruct (mkdir_exist_ok out w) as [w1 r1] eqn:Hmk.
  pose proof Hmk as Hmk'.
  apply mkdir_exist_ok_inv in Hmk' as [(-> & _)|(e & -> & -> & He)].
  - right. exists w1. rewrite bind_run, print_run in H.
    unfold try_except in H.
    destruct (convert_pages _ _ _ _ _ _) as [w3 [[]|e]] eqn:Hc.
    + injection H as <- <-. split_and!; [done..|]. by left.
    + rewrite print_run in H. injection H as <- <-.
      split_and!; [done..|]. right. by exists w3, e.
  - left. exists e. by simplify_eq.
Qed.

(** Once the folder is there, whatever the page count, the conversion or
    a save raises, the loop body returns. *)
Lemma process_pdf_catches tools pdf_path w w1 :
  mkdir_exist_ok
    (path_div DOCUMENTS_DIR (sanitize_filename (stem (name pdf_path)))) w
  = (w1, Returned ()) →
  ∃ w', process_pdf tools pdf_path w = (w', Returned ()).
Proof.
  intros Hmk. destruct (process_pdf tools pdf_path w) as [w' r] eqn:H.
  apply process_pdf_inv in H as [(e & He & _)|(w2 & _ & -> & _)].
  - congruence.
  - by exists w'.
Qed.

(** The batch stops early only with the exception of a [mkdir]. *)
Lemma process_all_aborts_at_mkdir tools pdf_files w w' e :
  process_all tools pdf_files w = (w', Raised e) →
  exn_class e = "FileExistsError" ∨ exn_class e = "FileNotFoundError".
Proof.
  revert w. induction pdf_files as [|pdf_path rest IH]; intros w H;
    [done|]. simpl in H. rewrite bind_run in H.
  destruct (process_pdf tools pdf_path w) as [w1 r] eqn:H1.
  apply process_pdf_inv in H1 as [(e' & _ & -> & _ & He)|(w2 & _ & -> & _)].
  - by simplify_eq.
  - by eapply IH.
Qed.



(** C6 (defect of the code). A failure on one document is meant never to
    abort the batch, but the folder of a document is created before the
    guarded block: with [x.pdf], [x.pdf.pdf] and [later.pdf] in the
    documents directory, the folder [documents/x.pdf] of the second
    document cannot be created, the exception leaves the function, and
    [later.pdf] is never processed. *)
Theorem mkdir_failure_aborts_batch :
  let '(w', r) :=
    convert_pdf_to_images (Sample.posix Sample.shadowed_pdfs)
      Sample.two_pages Sample.shadowed_world in
  r = Raised (PyErr "FileExistsError" "documents/x.pdf")
  ∧ stdout w'
    = [ "Found 3 PDF files."; "Processing: x";
        "Converting 2 pages to PNG images...";
        "  Saved: x_page_1.png"; "  Saved: x_page_2.png";
        "Successfully processed: x" ]
  ∧ fs w' !! ["documents"; "later"] = None.
Proof. vm_compute. split_and!; reflexivity. Qed.

End ConverterFacts.

(** ** The JSON decoder *)

Section JsonFacts.

Import Json.

Implicit Types (s r : string).

Lemma skip_ws_length s : String.length (skip_ws s) ≤ String.length s.
Proof.
  induction s as [|c s IH]; simpl; [done|].
  destruct (is_whitespace c); simpl; lia.
Qed.

Lemma scan_string_length n : ∀ s raw r,
  String.length s ≤ n →
  scan_string s = Some (raw, r) → String.length r < String.length s.
Proof.
  induction n as [n IH] using lt_wf_ind. intros s raw r Hn H.
  destruct s as [|c s1]; [done|]. simpl in H.
  destruct (Ascii.eqb c quote); [simplify_eq; simpl; lia|].
  destruct (Ascii.eqb c "\").
  - destruct s1 as [|e s2]; [done|].
    destruct (is_simple_escape e).
    + destruct (scan_string s2) as [[raw' r']|] eqn:H2; [|done].
      simpl in H. simplify_eq.
      apply (IH (String.length s2)) in H2; simpl in *; lia.
    + destruct (Ascii.eqb e "u"); [|done].
      destruct s2 as [|h1 [|h2 [|h3 [|h4 s3]]]]; try done.
      destruct (is_hex h1 && is_hex h2 && is_hex h3 && is_hex h4); [|done].
      destruct (scan_string s3) as [[raw' r']|] eqn:H3; [|done].
      simpl in H. simplify_eq.
      apply (IH (String.length s3)) in H3; simpl in *; lia.
  - destruct (nat_of_ascii c <? 32); [done|].
    destruct (scan_string s1) as [[raw' r']|] eqn:H1; [|done].
    simpl in H. simplify_eq.
    apply (IH (String.length s1)) in H1; simpl in *; lia.
Qed.

Lemma span_digits_length s ds r :
  span_digits s = (ds, r) → String.length r ≤ String.length s.
Proof.
  revert ds r. induction s as [|c s IH]; intros ds r H; simpl in H.
  - by simplify_eq.
  - destruct (digit c); [|simplify_eq; simpl; lia].
    destruct (span_digits s) as [ds' r'] eqn:Hs. simplify_eq.
    specialize (IH _ _ eq_refl). simpl. lia.
Qed.

Lemma scan_int_length s int r :
  scan_int s = Some (int, r) → String.length r < String.length s.
Proof.
  destruct s as [|c s]; simpl; [done|].
  destruct (Ascii.eqb c "0"); [intros; simplify_eq; simpl; lia|].
  destruct (digit c); [|done].
  destruct (span_digits s) as [ds r'] eqn:Hs. intros. simplify_eq.
  apply span_digits_length in Hs. simpl. lia.
Qed.

Lemma scan_frac_length s frac r :
  scan_frac s = (frac, r) → String.length r ≤ String.length s.
Proof.
  unfold scan_frac. intros H.
  repeat case_match; simplify_eq; try lia.
  match goal with
  | H : span_digits _ = _ |- _ => apply span_digits_length in H
  end.
  simpl. lia.
Qed.

Lemma scan_exp_length s exp r :
  scan_exp s = (exp, r) → String.length r ≤ String.length s.
Proof.
  unfold scan_exp. intros H.
  repeat case_match; simplify_eq; try lia;
    match goal with
    | H : span_digits _ = _ |- _ => apply span_digits_length in H
    end; simpl in *; lia.
Qed.

Lemma scan_number_length s lexeme r :
  scan_number s = Some (lexeme, r) → String.length r < String.length s.
Proof.
  unfold scan_number. intros H.
  repeat case_match; simplify_eq;
    repeat match goal with
    | H : scan_int _ = _ |- _ => apply scan_int_length in H
    | H : scan_frac _ = _ |- _ => apply scan_frac_length in H
    | H : scan_exp _ = _ |- _ => apply scan_exp_length in H
    end; simpl in *; lia.
Qed.

Lemma scan_literal_length s v r :
  scan_literal s = Some (v, r) → String.length r < String.length s.
Proof.
  unfold scan_literal. intros H.
  repeat case_match; simplify_eq;
    match goal with
    | H : strip_prefix _ _ = Some _ |- _ => apply strip_prefix_length in H
    end; simpl in *; lia.
Qed.

(** The three scanners, one step unfolded. *)
Lemma scan_once_S fuel lim depth s :
  scan_once (S fuel) lim depth s
  = match s with
    | EmptyString => Err (JSONDecodeError "Expecting value")
    | String c s' =>
        if Ascii.eqb c quote then
          match scan_string s' with
          | Some (raw, rest) => Ok (JString raw) rest
          | None => Err (JSONDecodeError "Invalid string")
          end
        else if Ascii.eqb c "{" then
          match depth with
          | O => Err (RecursionError "object")
          | S depth' =>
              match skip_ws s' with
              | String "}" rest => Ok (JObject []) rest
              | s1 =>
                  match parse_members fuel lim depth' s1 with
                  | Ok ms rest => Ok (JObject ms) rest
                  | Err e => Err e
                  | OutOfFuel => OutOfFuel
                  end
              end
          end
        else if Ascii.eqb c "[" then
          match depth with
          | O => Err (RecursionError "array")
          | S depth' =>
              match skip_ws s' with
              | String "]" rest => Ok (JArray []) rest
              | s1 =>
                  match parse_elements fuel lim depth' s1 with
                  | Ok vs rest => Ok (JArray vs) rest
                  | Err e => Err e
                  | OutOfFuel => OutOfFuel
                  end
              end
          end
        else
          match scan_literal s with
          | Some (v, rest) => Ok v rest
          | None =>
              match scan_number s with
              | Some (lexeme, rest) =>
                  match number_value lim lexeme with
                  | Returned v => Ok v rest
                  | Raised e => Err e
                  end
              | None => Err (JSONDecodeError "Expecting value")
              end
          end
    end.
Proof. reflexivity. Qed.

Lemma parse_members_S fuel lim depth s :
  parse_members (S fuel) lim depth s
  = match s with
    | String c s1 =>
        if Ascii.eqb c quote then
          match scan_string s1 with
          | Some (key, s2) =>
              match skip_ws s2 with
              | String ":" s3 =>
                  match scan_once fuel lim depth (skip_ws s3) with
                  | Ok v s4 =>
                      match skip_ws s4 with
                      | String "}" rest => Ok [(key, v)] rest
                      | String "," s5 =>
                          match parse_members fuel lim depth (skip_ws s5) with
                          | Ok ms rest => Ok ((key, v) :: ms) rest
                          | Err e => Err e
                          | OutOfFuel => OutOfFuel
                          end
                      | _ => Err (JSONDecodeError "Expecting ',' delimiter")
                      end
                  | Err e => Err e
                  | OutOfFuel => OutOfFuel
                  end
              | _ => Err (JSONDecodeError "Expecting ':' delimiter")
              end
          | None => Err (JSONDecodeError "Invalid string")
          end
        else Err (JSONDecodeError
                    "Expecting property name enclosed in double quotes")
    | EmptyString =>
        Err (JSONDecodeError
               "Expecting property name enclosed in double quotes")
    end.
Proof. reflexivity. Qed.

Lemma parse_elements_S fuel lim depth s :
  parse_elements (S fuel) lim depth s
  = match scan_once fuel lim depth s with
    | Ok v s1 =>
        match skip_ws s1 with
        | String "]" rest => Ok [v] rest
        | String "," s2 =>
            match parse_elements fuel lim depth (skip_ws s2) with
            | Ok vs rest => Ok (v :: vs) rest
            | Err e => Err e
            | OutOfFuel => OutOfFuel
            end
        | _ => Err (JSONDecodeError "Expecting ',' delimiter")
        end
    | Err e => Err e
    | OutOfFuel => OutOfFuel
    end.
Proof. reflexivity. Qed.

(** Turn the scans in the context into facts about lengths. *)
Ltac length_facts :=
  repeat match goal with
  | H : scan_string _ = Some _ |- _ =>
      apply (scan_string_length _ _ _ _ (le_n _)) in H
  | H : scan_literal _ = Some _ |- _ => apply scan_literal_length in H
  | H : scan_number _ = Some _ |- _ => apply scan_number_length in H
  | H : skip_ws ?s = _ |- _ =>
      pose proof (skip_ws_length s); rewrite H in *; clear H
  | H : context [String.length (skip_ws ?s)] |- _ =>
      lazymatch goal with
      | _ : String.length (skip_ws s) ≤ String.length s |- _ => fail
      | _ => pose proof (skip_ws_length s)
      end
  | |- context [String.length (skip_ws ?s)] =>
      lazymatch goal with
      | _ : String.length (skip_ws s) ≤ String.length s |- _ => fail
      | _ => pose proof (skip_ws_length s)
      end
  end.

(** A term, an object body and an array body each take at least one
    character. *)
Lemma scan_progress lim fuel :
  (∀ depth s v r, scan_once fuel lim depth s = Ok v r
                  → String.length r < String.length s)
  ∧ (∀ depth s ms r, parse_members fuel lim depth s = Ok ms r
                     → String.length r < String.length s)
  ∧ (∀ depth s vs r, parse_elements fuel lim depth s = Ok vs r
                     → String.length r < String.length s).
Proof.
  induction fuel as [|fuel (IHo & IHm & IHe)]; [by split_and!|].
  split_and!; intros depth s x r;
    [rewrite scan_once_S|rewrite parse_members_S|rewrite parse_elements_S];
    intros H; repeat case_match; simplify_eq;
    repeat match goal with
    | H : scan_once fuel _ _ _ = Ok _ _ |- _ => apply IHo in H
    | H : parse_members fuel _ _ _ = Ok _ _ |- _ => apply IHm in H
    | H : parse_elements fuel _ _ _ = Ok _ _ |- _ => apply IHe in H
    end; length_facts; simpl in *; lia.
Qed.

(** With fuel above twice the length of the input, a scan ends before
    the fuel does. *)
Lemma scan_fuel lim fuel :
  (∀ depth s, 2 * String.length s + 1 ≤ fuel
              → scan_once fuel lim depth s ≠ OutOfFuel)
  ∧ (∀ depth s, 2 * String.length s + 1 ≤ fuel
                → parse_members fuel lim depth s ≠ OutOfFuel)
  ∧ (∀ depth s, 2 * String.length s + 2 ≤ fuel
                → parse_elements fuel lim depth s ≠ OutOfFuel).
Proof.
  induction fuel as [|fuel (IHo & IHm & IHe)]; [split_and!; intros; lia|].
  pose proof (scan_progress lim fuel) as (Po & _ & _).
  assert (∀ depth s, 2 * String.length s + 1 ≤ fuel
                     → scan_once fuel lim depth s = OutOfFuel → False)
    as IHo' by (intros depth s Hs; by apply IHo).
  assert (∀ depth s, 2 * String.length s + 1 ≤ fuel
                     → parse_members fuel lim depth s = OutOfFuel → False)
    as IHm' by (intros depth s Hs; by apply IHm).
  assert (∀ depth s, 2 * String.length s + 2 ≤ fuel
                     → parse_elements fuel lim depth s = OutOfFuel → False)
    as IHe' by (intros depth s Hs; by apply IHe).
  clear IHo IHm IHe.
  split_and!; intros depth s Hs;
    [rewrite scan_once_S|rewrite parse_members_S|rewrite parse_elements_S];
    repeat case_match; simplify_eq; try done; intros _;
    repeat match goal with
    | H : scan_once fuel _ _ _ = Ok _ _ |- _ => apply Po in H
    end;
    first [ eapply IHo'; [|eassumption] | eapply IHm'; [|eassumption]
          | eapply IHe'; [|eassumption] ];
    length_facts; simpl in *; lia.
Qed.

(** The exceptions of a scan: a decoding error, the [ValueError] of an
    integer with more digits than the limit, or a [RecursionError]. *)
Lemma scan_raises lim fuel :
  let known e :=
    exn_class e = "JSONDecodeError" ∨ exn_class e = "ValueError"
    ∨ exn_class e = "RecursionError" in
  (∀ depth s e, scan_once fuel lim depth s = Err e → known e)
  ∧ (∀ depth s e, parse_members fuel lim depth s = Err e → known e)
  ∧ (∀ depth s e, parse_elements fuel lim depth s = Err e → known e).
Proof.
  intros known.
  induction fuel as [|fuel (IHo & IHm & IHe)]; [by split_and!|].
  split_and!; intros depth s e;
    [rewrite scan_once_S|rewrite parse_members_S|rewrite parse_elements_S];
    intros H; repeat case_match; simplify_eq;
    try (by left); try (by right; right);
    try (by eapply IHo); try (by eapply IHm); try (by eapply IHe).
  unfold number_value in *. repeat case_match; simplify_eq. by right; left.
Qed.

(** [json_loads] returns a value or raises one of its three exceptions:
    the fuel it gives the scan is enough. *)
Lemma json_loads_raises lim s e :
  json_loads lim s = Raised e →
  exn_class e = "JSONDecodeError" ∨ exn_class e = "ValueError"
  ∨ exn_class e = "RecursionError".
Proof.
  unfold json_loads. intros H.
  destruct (scan_once _ _ _ _) as [v r|e'|] eqn:Hscan.
  - repeat case_match; simplify_eq; by left.
  - pose proof (scan_raises lim (2 * String.length s + 1)) as (Ho & _ & _).
    simplify_eq. by eapply Ho.
  - exfalso. revert Hscan. apply scan_fuel.
    pose proof (skip_ws_length s). lia.
Qed.

Example json_loads_object :
  json_loads Sample.default_limits
    (replace "{'GDP Growth': '3.2%'}" "'" (String quote ""))
  = Returned (JObject [("GDP Growth", JString "3.2%")]).
Proof. reflexivity. Qed.

Example json_loads_trailing_comma :
  json_loads Sample.default_limits "[1,]"
  = Raised (JSONDecodeError "Expecting value").
Proof. reflexivity. Qed.

Example json_loads_long_integer :
  exn_class <$> (match json_loads Sample.default_limits Scenario.long_integer
                 with Raised e => Some e | Returned _ => None end)
  = Some "ValueError".
Proof. vm_compute. reflexivity. Qed.

Example json_loads_deep_array :
  exn_class <$> (match json_loads Sample.default_limits Scenario.deep_array
                 with Raised e => Some e | Returned _ => None end)
  = Some "RecursionError".
Proof. vm_compute. reflexivity. Qed.

End JsonFacts.

(** ** The chat front end *)

(** *** Path names and files *)

Section PathFacts.

Import ChatInterface.

Implicit Types (w : world) (p : string) (q d : abs_path)
  (fs : gmap abs_path node).

(** The system calls read the working directory and the files only. *)
Lemma locate_ext w w' p :
  cwd w' = cwd w → files w' = files w → locate w' p = locate w p.
Proof. intros Hc Hf. unfold locate. by rewrite Hc, Hf. Qed.

Lemma open_w_ext w w' p :
  cwd w' = cwd w → files w' = files w → open_w w' p = open_w w p.
Proof.
  intros Hc Hf. unfold open_w. by rewrite (locate_ext w w'), Hf.
Qed.

Lemma os_path_exists_ext w w' p :
  cwd w' = cwd w → files w' = files w →
  os_path_exists w' p = os_path_exists w p.
Proof.
  intros Hc Hf. unfold os_path_exists. by rewrite (locate_ext w w'), Hf.
Qed.

Lemma read_bytes_ext w w' p :
  cwd w' = cwd w → files w' = files w → read_bytes w' p = read_bytes w p.
Proof.
  intros Hc Hf. unfold read_bytes. by rewrite (locate_ext w w'), Hf.
Qed.

(** A new regular file, or new content for one, leaves every successful
    walk as it is. *)
Lemma walk_insert_file fs p q content names : ∀ cur d,
  fs !! q ≠ Some Dir →
  walk fs p cur names = Returned d →
  walk (<[q := File content]> fs) p cur names = Returned d.
Proof.
  induction names as [|n names IH]; intros cur d Hq H; [done|].
  simpl in *. repeat case_decide; [by apply IH..|].
  destruct (NAME_MAX <? String.length n); [done|].
  destruct (fs !! (cur ++ [n])) as [[c|]|] eqn:Hn; [done| |done].
  rewrite lookup_insert_ne by (intros Heq; apply Hq; rewrite Heq; exact Hn).
  rewrite Hn. by apply IH.
Qed.

Lemma locate_insert_file w p q content loc :
  files w !! q ≠ Some Dir →
  locate w p = Returned loc →
  locate (set_files (<[q := File content]> (files w)) w) p = Returned loc.
Proof.
  intros Hq H. unfold locate in *. cbn [cwd files set_files].
  destruct (has_nul p); [done|]. destruct (decide (p = "")); [done|].
  destruct (PATH_MAX <=? String.length p); [done|].
  destruct (reverse (components p)) as [|l before]; [done|].
  destruct (walk (files w) p _ (reverse before)) as [d|e] eqn:Hw; [|done].
  by rewrite (walk_insert_file _ _ _ _ _ _ _ Hq Hw).
Qed.

(** What [open_w] has checked when it returns. *)
Lemma open_w_inv w p q :
  open_w w p = Returned q →
  locate w p = Returned (AtName q false)
  ∧ (NAME_MAX <? String.length (default "" (last q))) = false
  ∧ files w !! q ≠ Some Dir
  ∧ is_dir (files w) (removelast q) = true
  ∧ q ≠ [].
Proof.
  unfold open_w. intros H.
  destruct (locate w p) as [[d|q' [|]]|e] eqn:Hloc; try done.
  destruct (NAME_MAX <? _) eqn:Hlen; [done|].
  assert (q' ≠ []) as Hne.
  { unfold locate in Hloc.
    destruct (has_nul p); [done|]. destruct (decide (p = "")); [done|].
    destruct (PATH_MAX <=? String.length p); [done|].
    destruct (reverse (components p)) as [|l before]; [done|].
    destruct (walk _ _ _ _) as [d0|]; [|done].
    repeat case_decide; simplify_eq. by destruct d0. }
  destruct (files w !! q') as [[c|]|] eqn:Hq; try done;
    destruct (is_dir (files w) (removelast q')) eqn:Hdir; simplify_eq;
    by rewrite ?Hq.
Qed.

Lemma removelast_ne q : q ≠ [] → removelast q ≠ q.
Proof.
  intros Hq Heq. apply (f_equal length) in Heq.
  destruct (exists_last Hq) as (l & x & ->).
  rewrite removelast_last, length_app in Heq. simpl in Heq. lia.
Qed.

Lemma is_dir_insert_file fs q content d :
  fs !! q ≠ Some Dir →
  is_dir (<[q := File content]> fs) d = is_dir fs d.
Proof.
  intros Hq. unfold is_dir. destruct d as [|x d]; [done|].
  destruct (decide (q = x :: d)) as [->|Hne].
  - rewrite lookup_insert_eq.
    case_match eqn:E; [|done]. case_match; [done|]. by destruct Hq.
  - by rewrite lookup_insert_ne.
Qed.

(** After the file is written, the same name opens the same entry, the
    file exists, and reading it gives what was written. *)
Lemma open_w_written w p q content :
  open_w w p = Returned q →
  let w' := set_files (<[q := File content]> (files w)) w in
  open_w w' p = Returned q
  ∧ os_path_exists w' p = true
  ∧ read_bytes w' p = Returned content.
Proof.
  intros (Hloc & Hlen & Hq & Hdir & Hne)%open_w_inv w'.
  pose proof (locate_insert_file w p q content _ Hq Hloc) as Hloc'.
  fold w' in Hloc'.
  unfold open_w, os_path_exists, read_bytes. rewrite Hloc', Hlen.
  unfold w'. cbn [files set_files]. rewrite lookup_insert_eq.
  by rewrite is_dir_insert_file, Hdir.
Qed.

(** A file written under another entry leaves what a name opens, and
    the file it reads, as they are. *)
Lemma open_w_other w p q q' content :
  files w !! q' ≠ Some Dir →
  open_w w p = Returned q →
  open_w (set_files (<[q' := File content]> (files w)) w) p = Returned q.
Proof.
  intros Hq' (Hloc & Hlen & Hq & Hdir & Hne)%open_w_inv.
  unfold open_w.
  rewrite (locate_insert_file w p q' content _ Hq' Hloc), Hlen.
  cbn [files set_files]. rewrite is_dir_insert_file, Hdir by done.
  destruct (decide (q' = q)) as [->|Hneq].
  - by rewrite lookup_insert_eq.
  - rewrite lookup_insert_ne by done.
    by destruct (files w !! q) as [[?|]|].
Qed.

(** What the system calls answer in the application directory of
    [Scenario.older_report], which holds [gdp.md] and [gdp.pdf]. *)
Example system_calls_in_app_dir :
  let w := Scenario.older_report in
  open_w w "gdp.md" = Returned ["srv"; "app"; "gdp.md"]
  ∧ open_w w "/srv/app/../app/./new.md" = Returned ["srv"; "app"; "new.md"]
  ∧ open_w w "" = Raised (ENOENT "")
  ∧ open_w w "reports/gdp.md" = Raised (ENOENT "reports/gdp.md")
  ∧ open_w w "gdp.md/notes" = Raised (ENOTDIR "gdp.md/notes")
  ∧ open_w w "new/" = Raised (EISDIR "new/")
  ∧ open_w w "." = Raised (EISDIR ".")
  ∧ open_w w "/srv" = Raised (EISDIR "/srv")
  ∧ open_w w (String (ascii_of_nat 0) "gdp.md") = Raised embedded_null_byte
  ∧ read_bytes w "gdp.pdf" = Returned "%PDF old"
  ∧ read_bytes w "gdp.pdf/" = Raised (ENOTDIR "gdp.pdf/")
  ∧ read_bytes w "report.pdf" = Raised (ENOENT "report.pdf")
  ∧ os_path_exists w "gdp.pdf" = true
  ∧ os_path_exists w "gdp.pdf/" = false
  ∧ os_path_exists w "../app/" = true
  ∧ os_path_exists w "report.pdf" = false.
Proof. vm_compute. split_and!; reflexivity. Qed.

End PathFacts.

(** *** Steps that respect a relation on worlds *)

Section Respects.

Import Json ChatInterface ChatFrame.

Implicit Types (w : world) (rt : runtime).

(** A relation that holds along every step of the writer and of the
    display loop: it is a preorder, and it relates a world to the world
    with one more event that is no [st.write], with one more file, with
    one more recorded hash, with the elements of a stored call shown
    again, and with one more stored call. *)
Variable R : relation world.
Hypothesis R_refl : ∀ w, R w w.
Hypothesis R_trans : ∀ w1 w2 w3, R w1 w2 → R w2 w3 → R w1 w3.
Hypothesis R_event : ∀ w e, (∀ text, e ≠ StWrite text) →
  R w (set_screen (screen w ++ [e]) w).
Hypothesis R_file : ∀ w q content,
  R w (set_files (<[q := File content]> (files w)) w).
Hypothesis R_hash : ∀ w k h,
  R w (set_session
         {| file_hashes := <[k := h]> (file_hashes (session w));
            chat_history := chat_history (session w) |} w).
Hypothesis R_replay : ∀ w key value shown,
  cache w !! key = Some (value, shown) →
  R w (set_screen (screen w ++ shown) w).
Hypothesis R_store : ∀ w w' key value,
  R w w' →
  R w (set_cache
         (<[key := (value, drop (length (screen w)) (screen w'))]> (cache w'))
         w').

Lemma respects_ret {A} (a : A) : respects R (mret a).
Proof. intros w w' r [= <- _]. apply R_refl. Qed.

Lemma respects_bind {A B} (m : M world A) (k : A → M world B) :
  respects R m → (∀ a, respects R (k a)) → respects R (m ≫= k).
Proof.
  intros Hm Hk w w' r H. rewrite bind_run in H.
  destruct (m w) as [w1 [a|e]] eqn:Hw1.
  - eapply R_trans; [by eapply Hm|by eapply Hk].
  - injection H as <- _. by eapply Hm.
Qed.

Lemma respects_try_except {A} (m : M world A) (h : exn → M world A) :
  respects R m → (∀ e, respects R (h e)) → respects R (try_except m h).
Proof.
  intros Hm Hh w w' r H. unfold try_except in H.
  destruct (m w) as [w1 [a|e]] eqn:Hw1.
  - injection H as <- _. by eapply Hm.
  - eapply R_trans; [by eapply Hm|by eapply Hh].
Qed.

Lemma respects_lift {A} (r : result A) : respects R (lift r).
Proof. intros w w' r' [= <- _]. apply R_refl. Qed.

Lemma respects_show e : (∀ text, e ≠ StWrite text) → respects R (show e).
Proof. intros He w w' r [= <- _]. by apply R_event. Qed.

Lemma respects_path_exists p : respects R (path_exists p).
Proof. intros w w' r [= <- _]. apply R_refl. Qed.

Lemma respects_write_file p c : respects R (write_file p c).
Proof.
  intros w w' r H. unfold write_file in H.
  destruct (open_w w p); injection H as <- _; [apply R_file|apply R_refl].
Qed.

Lemma respects_save_pdf rt p pdf : respects R (save_pdf rt p pdf).
Proof.
  intros w w' r H. unfold save_pdf in H.
  destruct (open_w w p); injection H as <- _; [apply R_file|apply R_refl].
Qed.

Lemma respects_read_file p : respects R (read_file p).
Proof. intros w w' r [= <- _]. apply R_refl. Qed.

Lemma respects_regenerate rt content filename image_paths h :
  respects R (regenerate rt content filename image_paths h).
Proof.
  intros w w' r H. eapply R_trans; [apply R_hash|].
  unfold regenerate in H. rewrite bind_run in H.
  unfold get_session at 1 in H.
  rewrite bind_run in H. unfold put_session at 1 in H.
  refine (respects_bind _ _ _ _ _ _ _ H);
    [apply respects_write_file|intros _].
  apply respects_bind; [apply respects_lift|intros pdf].
  apply respects_bind; [apply respects_save_pdf|intros _].
  apply respects_ret.
Qed.

Lemma respects_body rt content filename image_paths :
  respects R (write_markdown_to_file_body rt content filename image_paths).
Proof.
  unfold write_markdown_to_file_body. apply respects_try_except.
  - intros w w' r H. rewrite bind_run in H. unfold get_session at 1 in H.
    destruct (file_hashes (session w) !! md_filename_of filename)
      as [recorded|]; [|by eapply respects_regenerate].
    case_bool_decide; [|by eapply respects_regenerate].
    refine (respects_bind _ _ _ _ _ _ _ H); [apply respects_path_exists|].
    intros [|]; [apply respects_ret|apply respects_regenerate].
  - intros e. apply respects_bind; [by apply respects_show|intros _].
    apply respects_ret.
Qed.

Lemma respects_st_cache_data key (body : M world string) :
  respects R body → respects R (st_cache_data key body).
Proof.
  intros Hbody w w' r H. unfold st_cache_data in H.
  destruct (cache w !! key) as [[value shown]|] eqn:Hkey.
  - injection H as <- _. by eapply R_replay.
  - destruct (body w) as [w1 [value|e]] eqn:Hrun; injection H as <- _.
    + apply R_store. by eapply Hbody.
    + by eapply Hbody.
Qed.

Lemma respects_write_markdown_to_file rt content filename image_paths :
  respects R (write_markdown_to_file rt content filename image_paths).
Proof. apply respects_st_cache_data, respects_body. Qed.

(** What [download_button] returns is a link. *)
Lemma download_button_link rt object_to_download download_filename
    document_path w w' link :
  download_button rt object_to_download download_filename document_path w
  = (w', Returned link) →
  ∀ text, link ≠ StWrite text.
Proof.
  unfold download_button. rewrite bind_run.
  destruct (write_markdown_to_file _ _ _ _ w) as [w1 [msg|e]]; [|done].
  rewrite bind_run.
  destruct (read_file _ w1) as [w2 [bytes|e]]; [|done].
  by intros [= _ <-].
Qed.

Lemma respects_download_button rt object_to_download download_filename
    document_path :
  respects R
    (download_button rt object_to_download download_filename document_path).
Proof.
  unfold download_button.
  apply respects_bind; [apply respects_write_markdown_to_file|intros _].
  apply respects_bind; [apply respects_read_file|intros bytes].
  apply respects_ret.
Qed.

(** The display of one record, after the query was written. *)
Lemma display_chat_respects rt chat w w' r :
  display_chat rt chat w = (w', r) →
  R (set_screen (screen w ++ [StWrite (query chat)]) w) w'.
Proof.
  unfold display_chat. rewrite bind_run. unfold show at 1.
  intros H.
  refine (respects_bind _ _ _ _ _ _ _ H);
    [|intros _; by apply respects_show].
  apply respects_try_except; [|intros e; by apply respects_show].
  apply respects_bind; [by apply respects_show|intros _].
  apply respects_bind.
  { case_bool_decide; [apply respects_ret|].
    intros w1 w2 r2 H'. rewrite bind_run in H'.
    destruct (download_button _ _ _ _ w1) as [w3 [link|e]] eqn:Hlink.
    - eapply R_trans; [by eapply respects_download_button|].
      eapply respects_show; [|exact H'].
      by eapply download_button_link.
    - injection H' as <- _. by eapply respects_download_button. }
  intros _. apply respects_bind; [by apply respects_show|intros _].
  destruct (document_path (response chat));
    [apply respects_ret|by apply respects_show].
Qed.

End Respects.

(** *** The writer, the turn and the transcript *)

Section ChatFacts.

Import Json ChatInterface ChatFrame.

Implicit Types (w : world) (rt : runtime).

(** *** Steps that leave the transcript alone *)

Lemma keeps_display_chat rt chat : keeps_history (display_chat rt chat).
Proof.
  intros w w' r H.
  by refine (display_chat_respects
               (λ w w', chat_history (session w') = chat_history (session w))
               _ _ _ _ _ _ _ rt chat w w' r H);
    [done|intros w1 w2 w3 H12 H23; congruence|done..].
Qed.

Lemma keeps_display_all rt chats : keeps_history (display_all rt chats).
Proof.
  induction chats as [|chat chats IH]; [by intros w w' r [= <- _]|].
  intros w w' r. simpl. rewrite bind_run.
  destruct (display_chat rt chat w) as [w1 [[]|e]] eqn:H1; intros H.
  - apply IH in H. apply keeps_display_chat in H1. congruence.
  - injection H as <- _. by apply keeps_display_chat in H1.
Qed.

(** *** Steps that always return *)

Lemma try_except_show_returns (body : M world unit) (msg : exn → ui_event) w :
  ∃ w', try_except body (λ e, show (msg e)) w = (w', Returned ()).
Proof.
  unfold try_except. destruct (body w) as [w1 [[]|e]]; by eexists.
Qed.

Lemma display_chat_returns rt chat w :
  ∃ w', display_chat rt chat w = (w', Returned ()).
Proof.
  unfold display_chat. rewrite bind_run. simpl. rewrite bind_run.
  edestruct try_except_show_returns as [w1 ->]. by eexists.
Qed.

Lemma display_all_returns rt chats w :
  ∃ w', display_all rt chats w = (w', Returned ()).
Proof.
  revert w. induction chats as [|chat chats IH]; intros w; [by eexists|].
  simpl. rewrite bind_run.
  destruct (display_chat_returns rt chat w) as [w1 ->]. apply IH.
Qed.

(** *** The rendering cache *)

(** A regeneration, step by step: the hash is recorded first; then the
    Markdown file is written, the renderer is called and the PDF is
    saved, until one of the three raises. *)
Lemma regenerate_run rt content filename image_paths h w :
  let md := md_filename_of filename in
  let pdf := pdf_filename_of filename in
  let content' := with_images rt content image_paths in
  let w0 := set_session
              {| file_hashes := <[md := h]> (file_hashes (session w));
                 chat_history := chat_history (session w) |} w in
  regenerate rt content filename image_paths h w
  = match open_w w md with
    | Raised e => (w0, Raised e)
    | Returned kmd =>
        let w1 := set_files (<[kmd := File content']> (files w)) w0 in
        match markdown_pdf rt content' with
        | Raised e => (w1, Raised e)
        | Returned bytes =>
            match open_w w1 pdf with
            | Raised e => (w1, Raised (save_error rt e))
            | Returned kpdf =>
                (set_files (<[kpdf := File bytes]> (files w1)) w1,
                 Returned (created_msg filename))
            end
        end
    end.
Proof.
  intros md pdf content' w0. unfold regenerate. fold md pdf content'.
  rewrite bind_run. unfold get_session at 1.
  rewrite bind_run. unfold put_session at 1. fold w0.
  rewrite bind_run. unfold write_file at 1.
  rewrite (open_w_ext w w0 md) by done.
  destruct (open_w w md) as [kmd|e]; [|done].
  rewrite bind_run. unfold lift at 1.
  destruct (markdown_pdf rt content') as [bytes|e]; [|done].
  rewrite bind_run. unfold save_pdf at 1. cbv zeta.
  by destruct (open_w _ pdf) as [kpdf|e].
Qed.

(** The body, step by step. *)
Lemma body_run rt content filename image_paths w :
  let md := md_filename_of filename in
  let pdf := pdf_filename_of filename in
  let h := content_hash rt content image_paths in
  write_markdown_to_file_body rt content filename image_paths w
  = if decide (file_hashes (session w) !! md = Some h
               ∧ os_path_exists w pdf = true)
    then (w, Returned (already_exists_msg filename))
    else
      match regenerate rt content filename image_paths h w with
      | (w1, Returned msg) => (w1, Returned msg)
      | (w1, Raised e) =>
          (set_screen
             (screen w1 ++ [StError ("Error writing file: " +:+ exn_msg e)])
             w1,
           Returned (error_creating_msg filename e))
      end.
Proof.
  intros md pdf h. unfold write_markdown_to_file_body, try_except.
  fold md pdf h. rewrite bind_run. unfold get_session at 1.
  destruct (decide _) as [[Hrec Hex]|Hmiss].
  { rewrite Hrec, bool_decide_eq_true_2 by done. rewrite bind_run.
    unfold path_exists at 1. by rewrite Hex. }
  assert (∀ w1 r,
    regenerate rt content filename image_paths h w = (w1, r) →
    match r with
    | Returned a => (w1, Returned a)
    | Raised e =>
        (show (StError ("Error writing file: " +:+ exn_msg e));;
         mret (error_creating_msg filename e)) w1
    end
    = match r with
      | Returned msg => (w1, Returned msg)
      | Raised e =>
          (set_screen
             (screen w1 ++ [StError ("Error writing file: " +:+ exn_msg e)])
             w1,
           Returned (error_creating_msg filename e))
      end) as Hregen.
  { by intros w1 [msg|e] _. }
  destruct (file_hashes (session w) !! md) as [recorded|] eqn:Hrec.
  - case_bool_decide as Heq.
    + subst recorded. rewrite bind_run. unfold path_exists at 1.
      destruct (os_path_exists w pdf) eqn:Hex; [tauto|].
      destruct (regenerate _ _ _ _ _ w) as [w1 r] eqn:Hr. by eapply Hregen.
    + destruct (regenerate _ _ _ _ _ w) as [w1 r] eqn:Hr. by eapply Hregen.
  - destruct (regenerate _ _ _ _ _ w) as [w1 r] eqn:Hr. by eapply Hregen.
Qed.



(** The body run twice: the second execution is skipped. *)
Example body_twice :
  let rt := Sample.agent_saying "{}" in
  let body := write_markdown_to_file_body rt "# GDP" "gdp.pdf" [] in
  let '(w1, r1) := body Sample.fresh in
  let '(w2, r2) := body w1 in
  r1 = Returned "File gdp.pdf has been created successfully."
  ∧ r2 = Returned "File gdp.pdf already exists with same content."
  ∧ w2 = w1.
Proof. vm_compute. split_and!; reflexivity. Qed.

(** *** The turn *)

Lemma validate_metrics_run rt (r : agent_response) w :
  validate_metrics rt r w
  = match json_loads (json_limits rt)
            (replace (metrics_dict r) "'" (String quote "")) with
    | Returned _ => (w, Returned r)
    | Raised e =>
        if decide (exn_class e = "JSONDecodeError") then
          (set_screen (screen w ++ [invalid_metrics_warning e]) w,
           Returned (set_metrics_dict r empty_metrics))
        else (w, Raised e)
    end.
Proof.
  unfold validate_metrics, try_except_class. rewrite bind_run. unfold lift.
  destruct (json_loads _ _) as [v|e]; [done|].
  case_bool_decide; by case_decide.
Qed.

Lemma process_query_run rt user_query w :
  process_query rt user_query w
  = match run_agent rt user_query with
    | Returned r =>
        let '(w1, r') := validate_metrics rt r w in
        match r' with
        | Returned r' =>
            (set_session
               {| file_hashes := file_hashes (session w1);
                  chat_history :=
                    {| query := user_query; response := r';
                       timestamp := now_isoformat rt |}
                    :: chat_history (session w1) |} w1,
             Returned true)
        | Raised e =>
            (set_screen
               (screen w1
                ++ [StError ("Error processing query: " +:+ exn_msg e)]) w1,
             Returned false)
        end
    | Raised e =>
        (set_screen
           (screen w
            ++ [StError ("Error in agent response: " +:+ exn_msg e)]) w,
         Returned false)
    end.
Proof.
  unfold process_query, try_except at 1. rewrite bind_run.
  unfold get_agent_response, try_except at 1. rewrite bind_run. unfold lift.
  destruct (run_agent rt user_query) as [r|e]; [|done]. simpl.
  rewrite bind_run. destruct (validate_metrics rt r w) as [w1 [r'|e]]; done.
Qed.




(** A metrics string that is one integer of 4301 digits fails the turn:
    the error is shown and nothing is stored. So does one of 1000 nested
    arrays. *)
Example long_integer_fails_turn :
  ∃ w' msg,
    process_query (Sample.agent_saying Scenario.long_integer) "growth?"
      Sample.fresh
    = (w', Returned false)
    ∧ chat_history (session w') = []
    ∧ screen w' = [StError ("Error processing query: " +:+ msg)].
Proof. eexists _, _. vm_compute. split_and!; reflexivity. Qed.

Example deep_array_fails_turn :
  ∃ w',
    process_query (Sample.agent_saying Scenario.deep_array) "growth?"
      Sample.fresh
    = (w', Returned false)
    ∧ chat_history (session w') = []
    ∧ screen w'
      = [StError ("Error processing query: maximum recursion depth exceeded "
                  +:+ "while decoding a JSON array from a unicode string")].
Proof. eexists. vm_compute. split_and!; reflexivity. Qed.

(** C9. A script run always ends, and it changes the transcript in one
    way only. A turn whose query is not empty, whose agent call returns
    and whose metrics check goes through (the metrics string is valid
    JSON, or [json.loads] rejects it with a [JSONDecodeError]) puts
    exactly one record, with that query, the run's timestamp and the
    response (its metrics replaced by [{}] in the second case), in front
    of the records that were there, which keep their order. Every other
    run (no query, an empty query, a failed agent call, a metrics check
    that raises another exception) leaves the transcript as it was, and
    so does showing it, which calls the writer. No run removes or
    reorders a record. *)
Theorem transcript_grows_at_front rt user_query w :
  let record q r' :=
    {| query := q; response := r'; timestamp := now_isoformat rt |} in
  ∃ w', main rt user_query w = (w', Returned ())
    ∧ match user_query with
      | Some q =>
          if decide (q = "") then
            chat_history (session w') = chat_history (session w)
          else
            match run_agent rt q with
            | Returned r =>
                match json_loads (json_limits rt)
                        (replace (metrics_dict r) "'" (String quote "")) with
                | Returned _ =>
                    chat_history (session w')
                    = record q r :: chat_history (session w)
                | Raised e =>
                    if decide (exn_class e = "JSONDecodeError") then
                      chat_history (session w')
                      = record q (set_metrics_dict r "{}")
                        :: chat_history (session w)
                    else
                      chat_history (session w') = chat_history (session w)
                end
            | Raised _ =>
                chat_history (session w') = chat_history (session w)
            end
      | None => chat_history (session w') = chat_history (session w)
      end.
Proof.
  intros record.
  assert (∀ w0, ∃ w', (ss ← get_session; display_all rt (chat_history ss)) w0
                      = (w', Returned ())
                ∧ chat_history (session w') = chat_history (session w0))
    as Hdisplay.
  { intros w0. rewrite bind_run. unfold get_session at 1.
    destruct (display_all_returns rt (chat_history (session w0)) w0) as [w' H].
    exists w'. split; [done|]. by apply keeps_display_all in H. }
  unfold main. rewrite bind_run.
  destruct user_query as [q|]; [|apply Hdisplay].
  destruct (decide (q = "")) as [Hq|Hq].
  - rewrite bool_decide_eq_true_2 by done. apply Hdisplay.
  - rewrite bool_decide_eq_false_2 by done. rewrite process_query_run.
    destruct (run_agent rt q) as [r|e].
    + rewrite validate_metrics_run.
      destruct (json_loads _ _) as [v|e]; [by eexists|].
      case_decide; [by eexists|].
      match goal with
      | |- context [set_screen ?scr w] =>
          destruct (Hdisplay (set_screen scr w)) as (w' & Hrun & Hh)
      end.
      by exists w'.
    + match goal with
      | |- context [set_screen ?scr w] =>
          destruct (Hdisplay (set_screen scr w)) as (w' & Hrun & Hh)
      end.
      by exists w'.
Qed.

(** Two turns in a row: the second record is in front of the first. *)
Example two_turns :
  let rt := Sample.agent_saying "{}" in
  let w1 := (main rt (Some "first") Sample.fresh).1 in
  let w2 := (main rt (Some "second") w1).1 in
  query <$> chat_history (session w2) = ["second"; "first"].
Proof. vm_compute. reflexivity. Qed.

End ChatFacts.

(** ** More on strings *)

Section MoreStringFacts.

Implicit Types (s t u p : string) (a c : ascii).

Lemma append_nil_r s : s +:+ "" = s.
Proof. induction s as [|a s IH]; [done|]. by rewrite append_cons, IH. Qed.

(** A test on every character, as a computation and as a statement. *)
Lemma forallb_string_get (P : ascii → bool) s :
  forallb P (list_ascii_of_string s) = true →
  ∀ i c, String.get i s = Some c → P c = true.
Proof.
  induction s as [|a s IH]; simpl; [done|].
  intros [Ha Hs]%andb_true_iff [|i] c Hc; simpl in Hc.
  - by simplify_eq.
  - by eapply IH.
Qed.

Lemma sub_scan_class_length (cls : char_class) (r : ascii) s fuel :
  String.length s ≤ fuel →
  String.length (sub_scan fuel [cls] (String r "") s) = String.length s.
Proof.
  revert fuel. induction s as [|c s IH]; intros [|fuel] Hf; simpl in *;
    try done; try lia.
  destruct (cls c).
  - rewrite append_cons. change ("" +:+ ?x) with x. simpl. f_equal.
    apply IH. lia.
  - simpl. f_equal. apply IH. lia.
Qed.

Lemma rev_app_append s t u :
  String.rev_app (s +:+ t) u = String.rev_app t (String.rev_app s u).
Proof.
  revert u. induction s as [|a s IH]; intros u; [done|].
  rewrite append_cons. simpl. apply IH.
Qed.

Lemma rev_app_acc s u : String.rev_app s u = String.rev s +:+ u.
Proof.
  revert u. induction s as [|a s IH]; intros u; [done|].
  unfold String.rev. simpl. rewrite (IH (String a "")), IH.
  by rewrite append_assoc.
Qed.

Lemma rev_append s t : String.rev (s +:+ t) = String.rev t +:+ String.rev s.
Proof. unfold String.rev at 1. by rewrite rev_app_append, rev_app_acc. Qed.

Lemma endswith_append s p : endswith (s +:+ p) p = true.
Proof. unfold endswith. rewrite rev_append. apply startswith_append. Qed.

End MoreStringFacts.

(** ** The tool and the names of the corpus preparer *)

Section PageNameFacts.

Import AgentModule.

Implicit Types (s t ds : string) (a c d : ascii).

Lemma list_ascii_of_string_append s t :
  list_ascii_of_string (s +:+ t)
  = list_ascii_of_string s ++ list_ascii_of_string t.
Proof.
  induction s as [|a s IH]; [done|]. rewrite append_cons. simpl. by rewrite IH.
Qed.

Lemma sub_scan_step_none fuel pat repl c s :
  match_at pat (String c s) = None →
  sub_scan (S fuel) pat repl (String c s)
  = String c (sub_scan fuel pat repl s).
Proof. intros H. simpl sub_scan. by rewrite H. Qed.

Lemma match_at_cons (p : char_class) pat c s :
  match_at (p :: pat) (String c s) = if p c then match_at pat s else None.
Proof. reflexivity. Qed.

(** *** Decimal numerals *)

Lemma string_of_uint_digits (u : Decimal.uint) :
  forallb digit (list_ascii_of_string (NilEmpty.string_of_uint u)) = true.
Proof. induction u; simpl; auto. Qed.

Lemma string_of_uint_short (u : Decimal.uint) :
  String.length (NilEmpty.string_of_uint u) ≤ 2 → Nat.of_uint u < 100.
Proof.
  assert (∀ v : Decimal.uint,
            String.length (NilEmpty.string_of_uint v) ≤ 0 → v = Decimal.Nil)
    as Hnil.
  { intros [| | | | | | | | | |]; simpl; first [done|lia]. }
  intros H.
  destruct u as [|u|u|u|u|u|u|u|u|u|u]; simpl in H;
    try (vm_compute; lia);
    (destruct u as [|u|u|u|u|u|u|u|u|u|u]; simpl in H;
     try (vm_compute; lia);
     (rewrite (Hnil u) by lia; vm_compute; lia)).
Qed.

Lemma str_of_nat_digits n :
  forallb digit (list_ascii_of_string (str_of_nat n)) = true.
Proof. apply string_of_uint_digits. Qed.

(** A numeral has two digits exactly for the numbers from 10 to 99. *)
Lemma str_of_nat_two_digits n :
  String.length (str_of_nat n) = 2 ↔ 10 ≤ n < 100.
Proof.
  assert (∀ m, m < 100 →
            String.length (str_of_nat m) = if m <? 10 then 1 else 2)
    as Hsmall.
  { intros m Hm.
    assert (forallb (λ m, String.length (str_of_nat m)
                          =? (if m <? 10 then 1 else 2)) (seq 0 100) = true)
      as Hall by (vm_compute; reflexivity).
    rewrite forallb_forall in Hall.
    apply Nat.eqb_eq, Hall, in_seq. lia. }
  split.
  - intros H. destruct (decide (n < 100)) as [Hn|Hn].
    + rewrite Hsmall in H by done.
      destruct (Nat.ltb_spec n 10); [discriminate|lia].
    + exfalso. apply Hn.
      rewrite <-(DecimalNat.Unsigned.of_to n).
      apply string_of_uint_short. unfold str_of_nat in H. lia.
  - intros [H1 H2]. rewrite Hsmall by done.
    destruct (Nat.ltb_spec n 10); [lia|done].
Qed.

(** *** The page suffix *)

Lemma digit_ne d c : digit d = true → digit c = false → Ascii.eqb c d = false.
Proof. intros Hd Hc. apply Ascii.eqb_neq. by intros ->; congruence. Qed.

(** The scan of a page image name: stem, page marker, digits, extension. *)
Lemma derive_document_name_of_page_name (stem ds : string) :
  forallb (λ c, negb (Ascii.eqb "_" c)) (list_ascii_of_string stem) = true →
  forallb digit (list_ascii_of_string ds) = true →
  derive_document_name (stem +:+ "_page_" +:+ ds +:+ ".png")
  = if decide (String.length ds = 2) then stem +:+ ".pdf"
    else stem +:+ "_page_" +:+ ds +:+ ".png".
Proof.
  intros Hstem Hds.
  assert (∀ i c, String.get i stem = Some c → c ≠ "_"%char) as Hstem'.
  { intros i c Hc. eapply forallb_string_get in Hstem; [|exact Hc].
    apply negb_true_iff, Ascii.eqb_neq in Hstem. congruence. }
  case_decide as Hlen.
  { destruct ds as [|d1 [|d2 [|d3 ds]]]; try done.
    simpl in Hds. apply andb_true_iff in Hds as [H1 [H2 _]%andb_true_iff].
    by apply derive_document_name_two_digits. }
  unfold derive_document_name, re_sub. rewrite length_append.
  change page_suffix_pattern
    with [lit "_"; lit "p"; lit "a"; lit "g"; lit "e"; lit "_";
          digit; digit; lit "."; lit "p"; lit "n"; lit "g"].
  rewrite sub_scan_skip; last first.
  { intros i c Hi. unfold lit. apply Ascii.eqb_neq. intros <-.
    by eapply Hstem'. }
  f_equal.
  set (rest := ds +:+ ".png").
  match goal with
  | |- sub_scan _ ?pat _ _ = _ =>
      change (sub_scan (S (String.length "page" + S (String.length rest)))
                pat ".pdf" (String "_" ("page" +:+ String "_" rest))
              = String "_" ("page" +:+ String "_" rest))
  end.
  rewrite sub_scan_step_none; last first.
  { unfold rest.
    destruct ds as [|d1 [|d2 [|d3 ds]]]; simpl in Hds, Hlen; try done.
    - apply andb_true_iff in Hds as [H1 _].
      match goal with
      | |- match_at ?pat _ = _ =>
          change (match_at pat
                    (String "_" (String "p" (String "a" (String "g"
                       (String "e" (String "_" (String d1 ".png")))))))
                  = None)
      end.
      rewrite !match_at_cons, H1. reflexivity.
    - apply andb_true_iff in Hds
        as [H1 [H2 [H3 _]%andb_true_iff]%andb_true_iff].
      match goal with
      | |- match_at ?pat _ = _ =>
          change (match_at pat
                    (String "_" (String "p" (String "a" (String "g"
                       (String "e" (String "_" (String d1 (String d2
                          (String d3 (ds +:+ ".png"))))))))))
                  = None)
      end.
      rewrite !match_at_cons, H1, H2. unfold lit at 7.
      rewrite (digit_ne d3 ".") by done. reflexivity. }
  f_equal. rewrite sub_scan_skip by (by intros [|[|[|[|[|i]]]]] c [= <-]).
  f_equal. rewrite sub_scan_step_none; last first.
  { unfold rest. destruct ds as [|d1 ds]; [done|].
    simpl in Hds. apply andb_true_iff in Hds as [H1 _].
    rewrite append_cons, !match_at_cons. unfold lit at 2.
    rewrite (digit_ne d1 "p") by done. reflexivity. }
  f_equal. rewrite <-(append_nil_r rest) at 2.
  rewrite <-(Nat.add_0_r (String.length rest)).
  rewrite sub_scan_skip; [by rewrite !append_nil_r|].
  intros i c Hc.
  assert (forallb (λ c, negb (lit "_" c)) (list_ascii_of_string rest) = true)
    as Hrest.
  { unfold rest. rewrite list_ascii_of_string_append, forallb_app.
    apply andb_true_iff. split; [|done].
    apply forallb_forall. intros d Hd.
    eapply forallb_forall in Hds; [|exact Hd].
    unfold lit. by rewrite (digit_ne d "_"). }
  eapply forallb_string_get in Hrest; [|exact Hc].
  by apply negb_true_iff in Hrest.
Qed.

(** X1. For a sanitized stem without underscore, the name the corpus
    preparer gives to the image of page [n] is rewritten by the tool to
    [<stem>.pdf] exactly when [n] has two digits, that is for the pages 10
    to 99; for every other page number the image name comes back
    unchanged. *)
Theorem page_suffix_stripped_for_two_digit_pages (san : string) (n : nat) :
  forallb (λ c, negb (Ascii.eqb "_" c)) (list_ascii_of_string san) = true →
  derive_document_name (PdfToPng.image_name san n)
  = if decide (10 ≤ n < 100) then san +:+ ".pdf"
    else PdfToPng.image_name san n.
Proof.
  intros Hsan. unfold PdfToPng.image_name.
  rewrite derive_document_name_of_page_name
    by (done || apply str_of_nat_digits).
  destruct (decide (10 ≤ n < 100)) as [Hn|Hn].
  - by rewrite decide_True by by apply str_of_nat_two_digits.
  - by rewrite decide_False by by rewrite str_of_nat_two_digits.
Qed.

Lemma page_suffix_stripped_for_two_digit_pages_witness :
  derive_document_name (PdfToPng.image_name "report" 12) = "report.pdf"
  ∧ derive_document_name (PdfToPng.image_name "report" 7)
    = "report_page_7.png".
Proof.
  split.
  - exact (page_suffix_stripped_for_two_digit_pages "report" 12 eq_refl).
  - exact (page_suffix_stripped_for_two_digit_pages "report" 7 eq_refl).
Defined.


(** X2. For a stored page number of the form [page_<n>] with [n] a string
    of digits, the page number handed back is [n]. *)
Theorem page_number_of_digits (m : match_) (n : string) :
  md_page_number (m_metadata m) = "page_" +:+ n →
  forallb digit (list_ascii_of_string n) = true →
  page_number_of m = n.
Proof.
  intros Hm Hn. unfold page_number_of, replace, re_sub. rewrite Hm.
  rewrite length_append.
  change (sub_scan (String.length "page_" + String.length n) (lits "page_") ""
            ("page_" +:+ n))
    with (sub_scan (4 + String.length n) (lit "p" :: lits "age_") "" n).
  replace (4 + String.length n) with (String.length n + 4) by lia.
  rewrite <-(append_nil_r n) at 2.
  rewrite sub_scan_skip; [by rewrite !append_nil_r|].
  intros i c Hi. eapply forallb_string_get in Hn; [|done].
  unfold lit. apply Ascii.eqb_neq. intros <-. discriminate.
Qed.

Lemma page_number_of_digits_witness :
  page_number_of (Sample.page "report" "03" 0.5%float) = "03".
Proof.
  apply (page_number_of_digits (Sample.page "report" "03" 0.5%float) "03");
    reflexivity.
Defined.

(** *** The path of a match *)

Lemma replace_backslash (s t : string) :
  (∀ i c, String.get i s = Some c → c ≠ "\"%char) →
  replace (s +:+ String "\" t) "\" "/" = s +:+ String "/" (replace t "\" "/").
Proof.
  intros Hs. unfold replace, re_sub. rewrite length_append.
  change (lits "\") with [lit "\"].
  change (String.length (String "\" t)) with (S (String.length t)).
  rewrite sub_scan_skip; last first.
  { intros i c Hc. unfold lit. apply Ascii.eqb_neq. intros <-.
    by eapply Hs. }
  reflexivity.
Qed.

Lemma replace_backslash_free (s : string) :
  (∀ i c, String.get i s = Some c → c ≠ "\"%char) →
  replace s "\" "/" = s.
Proof.
  intros Hs. unfold replace, re_sub. change (lits "\") with [lit "\"].
  rewrite <-(append_nil_r s) at 2. rewrite <-(Nat.add_0_r (String.length s)).
  rewrite sub_scan_skip; [by rewrite !append_nil_r|].
  intros i c Hc. unfold lit. apply Ascii.eqb_neq. intros <-. by eapply Hs.
Qed.

Lemma split_slash_free (s : string) :
  (∀ i c, String.get i s = Some c → c ≠ "/"%char) →
  split_slash s = [s].
Proof.
  induction s as [|a s IH]; intros Hs; [done|]. simpl.
  destruct (Ascii.eqb_spec a "/") as [->|_]; [by destruct (Hs 0 "/"%char)|].
  rewrite IH; [done|]. intros i c Hc. by apply (Hs (S i)).
Qed.

Lemma split_slash_cons (s t : string) :
  (∀ i c, String.get i s = Some c → c ≠ "/"%char) →
  split_slash (s +:+ String "/" t) = s :: split_slash t.
Proof.
  induction s as [|a s IH]; intros Hs; [done|].
  rewrite append_cons. simpl.
  destruct (Ascii.eqb_spec a "/") as [->|_]; [by destruct (Hs 0 "/"%char)|].
  rewrite IH; [done|]. intros i c Hc. by apply (Hs (S i)).
Qed.

(** X3. For a stored path [documents\<folder>\<file>], in which the
    folder and the file name hold no separator and are neither empty nor
    a single dot (the form the corpus preparer gives the path of a page
    image on Windows), the path handed back is the relative path of the
    three names [documents], [<folder>], [<file>]. *)
Theorem path_of_slashes (m : match_) (folder file : string) :
  let name_chars s :=
    forallb (λ c, negb (Ascii.eqb c "/") && negb (Ascii.eqb c "\"))
      (list_ascii_of_string s) in
  md_document_path (m_metadata m)
  = "documents\" +:+ folder +:+ "\" +:+ file →
  name_chars folder = true → folder ≠ "" → folder ≠ "." →
  name_chars file = true → file ≠ "" → file ≠ "." →
  path_of m
  = {| path_root := ""; path_names := ["documents"; folder; file] |}.
Proof.
  intros name_chars Hm Hfolder Hf1 Hf2 Hfile Hn1 Hn2.
  assert (∀ s, name_chars s = true →
            ∀ i c, String.get i s = Some c → c ≠ "/"%char ∧ c ≠ "\"%char)
    as Hchars.
  { intros s Hs i c Hc. eapply forallb_string_get in Hs; [|exact Hc].
    apply andb_true_iff in Hs as [H1 H2].
    apply negb_true_iff, Ascii.eqb_neq in H1, H2. done. }
  unfold path_of. rewrite Hm.
  change ("documents\" +:+ folder +:+ "\" +:+ file)
    with ("documents" +:+ String "\" (folder +:+ String "\" file)).
  rewrite replace_backslash
    by (by intros [|[|[|[|[|[|[|[|[|i]]]]]]]]] c [= <-]).
  rewrite replace_backslash by (intros i c Hc; by eapply (Hchars folder)).
  rewrite replace_backslash_free by (intros i c Hc; by eapply (Hchars file)).
  unfold posix_path. f_equal.
  rewrite split_slash_cons
    by (by intros [|[|[|[|[|[|[|[|[|i]]]]]]]]] c [= <-]).
  rewrite split_slash_cons by (intros i c Hc; by eapply (Hchars folder)).
  rewrite split_slash_free by (intros i c Hc; by eapply (Hchars file)).
  rewrite filter_cons_True by done.
  rewrite filter_cons_True by done.
  by rewrite filter_cons_True by done.
Qed.

Lemma path_of_slashes_witness :
  path_of (Sample.page "report" "03" 0.5%float)
  = {| path_root := "";
       path_names := ["documents"; "report"; "report_page_03.png"] |}.
Proof.
  by apply (path_of_slashes (Sample.page "report" "03" 0.5%float)
              "report" "report_page_03.png").
Defined.

(** Doubled and trailing slashes and single dots leave no trace in the
    path; a leading slash makes it absolute. *)
Example path_of_normalises :
  posix_path "documents//report/./report_page_03.png/"
  = {| path_root := "";
       path_names := ["documents"; "report"; "report_page_03.png"] |}
  ∧ posix_path "/srv/../documents"
    = {| path_root := "/"; path_names := ["srv"; ".."; "documents"] |}
  ∧ posix_path "" = {| path_root := ""; path_names := [] |}.
Proof. split_and!; reflexivity. Qed.

End PageNameFacts.

(** ** More on the corpus preparer *)

Section ConverterRuns.

Import PdfToPng.

Implicit Types (w : world) (p out : path) (tools : pdf_tools).

(** X4. A sanitized name has the length of the name, holds none of the
    nine characters, and sanitizing it again changes nothing. *)
Theorem sanitize_filename_clean_and_idempotent (s : string) :
  String.length (sanitize_filename s) = String.length s
  ∧ forallb (λ c, negb (illegal_char c))
      (list_ascii_of_string (sanitize_filename s)) = true
  ∧ sanitize_filename (sanitize_filename s) = sanitize_filename s.
Proof.
  assert (∀ t, forallb (λ c, negb (illegal_char c))
                 (list_ascii_of_string t) = true
               → sanitize_filename t = t) as Hfix.
  { intros t Ht. apply String.get_correct. intros i.
    rewrite sanitize_filename_get.
    destruct (String.get i t) as [c|] eqn:Hc; [|done]. simpl.
    eapply forallb_string_get in Ht; [|done].
    by apply negb_true_iff in Ht as ->. }
  assert (forallb (λ c, negb (illegal_char c))
            (list_ascii_of_string (sanitize_filename s)) = true) as Hclean.
  { unfold sanitize_filename, re_sub.
    generalize (le_n (String.length s)).
    generalize (String.length s) at 2 3 as fuel.
    induction s as [|c s IH]; intros [|fuel] Hf; simpl in *; try done;
      try lia.
    destruct (illegal_char c) eqn:Hc.
    - rewrite append_cons. change ("" +:+ ?x) with x. simpl.
      apply IH. lia.
    - simpl. rewrite Hc. simpl. apply IH. lia. }
  split_and!; [by apply sub_scan_class_length|done|by apply Hfix].
Qed.

(** *** Frames *)

Lemma convert_pages_frame tools pdf_path out pdf_name san w w' r p :
  convert_pages tools pdf_path out pdf_name san w = (w', r) →
  (∀ n, p ≠ out ++ [image_name san n]) →
  fs w' !! p = fs w !! p.
Proof.
  intros H Hp. unfold convert_pages in H.
  rewrite bind_run in H. unfold lift at 1 in H.
  destruct (pdf_num_pages tools pdf_path) as [n|e]; [|by simplify_eq].
  rewrite bind_run, print_run, bind_run in H. unfold lift at 1 in H.
  destruct (convert_from_path tools pdf_path) as [images|e];
    [|by simplify_eq].
  rewrite bind_run in H.
  destruct (save_images out san 0 images _) as [w2 [[]|e]] eqn:Hsave.
  - rewrite print_run in H. injection H as <- <-. simpl.
    erewrite save_images_frame; [|exact Hsave|]; [done|].
    intros j _. apply Hp.
  - injection H as <- <-.
    erewrite save_images_frame; [|exact Hsave|]; [done|].
    intros j _. apply Hp.
Qed.

(** The loop body touches the folder of the document and page images in
    it, and nothing else. *)
Lemma process_pdf_frame tools pdf_path w w' r p :
  let san := sanitize_filename (stem (name pdf_path)) in
  let out := path_div DOCUMENTS_DIR san in
  process_pdf tools pdf_path w = (w', r) →
  p ≠ out → (∀ n, p ≠ out ++ [image_name san n]) →
  fs w' !! p = fs w !! p.
Proof.
  intros san out H Hout Hp.
  apply process_pdf_inv in H as [(e & _ & _ & -> & _)|(w1 & Hmk & _ & H)];
    [done|].
  fold san out in Hmk, H. simpl in H.
  apply mkdir_exist_ok_inv in Hmk as [(_ & _ & _ & Hframe)|(e & [=] & _)].
  rewrite <-(Hframe p Hout).
  destruct H as [H|(w3 & e & H & ->)];
    by eapply convert_pages_frame in H.
Qed.

Lemma process_pdf_returned_dir tools pdf_path w w' :
  process_pdf tools pdf_path w = (w', Returned ()) →
  fs w' !! path_div DOCUMENTS_DIR (sanitize_filename (stem (name pdf_path)))
  = Some Dir.
Proof.
  intros H.
  apply process_pdf_inv in H as [(e & _ & [=] & _)|(w1 & Hmk & _ & H)].
  simpl in H.
  apply mkdir_exist_ok_inv in Hmk as [(_ & Hdir & _ & _)|(e & [=] & _)].
  rewrite <-Hdir.
  destruct H as [H|(w3 & e & H & ->)];
    (eapply convert_pages_frame in H; [exact H|]);
    intros n Heq; apply (f_equal length) in Heq;
    rewrite length_app in Heq; simpl in Heq; lia.
Qed.

Lemma mkdir_exist_ok_free p w :
  fs w !! p = None ∨ fs w !! p = Some Dir →
  is_dir (parent p) w = true →
  ∃ w1, mkdir_exist_ok p w = (w1, Returned ()).
Proof.
  intros Hp Hparent. unfold mkdir_exist_ok.
  destruct Hp as [-> | ->]; [rewrite Hparent|]; by eexists.
Qed.

(** X5. Once the folder of a document is there, an exception of the page
    count or of the conversion does not leave the loop body: the body
    returns, the file system is as the folder creation left it, and the
    lines printed are the processing line, the page-count line when the
    count was read, and the error line with the message of the exception. *)
Theorem guarded_failure_is_logged tools pdf_path w w1 e :
  let pdf_name := stem (name pdf_path) in
  let out := path_div DOCUMENTS_DIR (sanitize_filename pdf_name) in
  mkdir_exist_ok out w = (w1, Returned ()) →
  pdf_num_pages tools pdf_path = Raised e
  ∨ (∃ n, pdf_num_pages tools pdf_path = Returned n)
    ∧ convert_from_path tools pdf_path = Raised e →
  ∃ w', process_pdf tools pdf_path w = (w', Returned ())
    ∧ fs w' = fs w1
    ∧ stdout w'
      = stdout w ++ ["Processing: " +:+ pdf_name]
        ++ match pdf_num_pages tools pdf_path with
           | Returned n =>
               ["Converting " +:+ str_of_nat n +:+ " pages to PNG images..."]
           | Raised _ => []
           end
        ++ ["Error processing " +:+ pdf_name +:+ ": " +:+ exn_msg e].
Proof.
  intros pdf_name out Hmk Hfail.
  pose proof Hmk as Hmk'.
  apply mkdir_exist_ok_inv in Hmk' as [(_ & _ & Hout & _)|(e' & [=] & _)].
  unfold process_pdf. fold pdf_name out.
  rewrite bind_run, Hmk, bind_run, print_run. unfold try_except, convert_pages.
  rewrite bind_run. unfold lift at 1.
  destruct Hfail as [-> | [[n ->] Hconv]].
  - eexists. split; [reflexivity|]. simpl. rewrite Hout.
    split; [done|]. by rewrite <-!app_assoc.
  - rewrite bind_run, print_run, bind_run. unfold lift at 1. rewrite Hconv.
    eexists. split; [reflexivity|]. simpl. rewrite Hout.
    split; [done|]. by rewrite <-!app_assoc.
Qed.

Lemma guarded_failure_is_logged_witness :
  ∃ w', process_pdf Scenario.unreadable Sample.notes_pdf Sample.notes_world
        = (w', Returned ())
    ∧ stdout w'
      = [ "Processing: notes: v2"; "Converting 2 pages to PNG images...";
          "Error processing notes: v2: no pages" ].
Proof.
  destruct (guarded_failure_is_logged Scenario.unreadable Sample.notes_pdf
              Sample.notes_world
              (mkdir_exist_ok ["documents"; "notes_ v2"] Sample.notes_world).1
              (PyErr "PDFSyntaxError" "no pages"))
    as (w' & Hrun & _ & Hstd).
  - vm_compute; reflexivity.
  - right. split; [by exists 2|reflexivity].
  - exists w'. split; [exact Hrun|exact Hstd].
Defined.

Lemma is_dir_parent_snoc out (x : string) w :
  fs w !! out = Some Dir → is_dir (parent (out ++ [x])) w = true.
Proof.
  intros H. unfold parent. rewrite removelast_last.
  unfold is_dir. destruct out; [done|]. by rewrite H.
Qed.

(** A page loop that meets a directory under the name of page [k]: the
    pages before it are saved and stay, and nothing else changes. *)
Lemma save_images_blocked k : ∀ images out san i w,
  fs w !! out = Some Dir →
  k < length images →
  fs w !! (out ++ [image_name san (i + k + 1)]) = Some Dir →
  (∀ j, j < k → fs w !! (out ++ [image_name san (i + j + 1)]) ≠ Some Dir) →
  ∃ w', save_images out san i images w
        = (w', Raised (PyErr "IsADirectoryError"
                         (path_str (out ++ [image_name san (i + k + 1)]))))
    ∧ (∀ j img, j < k → images !! j = Some img →
         fs w' !! (out ++ [image_name san (i + j + 1)]) = Some (File img))
    ∧ (∀ p, (∀ j, j < k → p ≠ out ++ [image_name san (i + j + 1)]) →
         fs w' !! p = fs w !! p).
Proof.
  induction k as [|k IH]; intros [|img rest] out san i w Hout Hk Hdir Hfree;
    simpl in Hk; try lia.
  - simpl. rewrite bind_run, path_div_image. unfold image_save.
    rewrite Nat.add_0_r in Hdir. unfold path in *. rewrite Hdir.
    eexists. split; [by rewrite Nat.add_0_r|]. split; [intros; lia|done].
  - simpl. rewrite bind_run, path_div_image. unfold image_save.
    unfold path in *.
    pose proof (Hfree 0 ltac:(lia)) as H0. rewrite Nat.add_0_r in H0.
    rewrite (is_dir_parent_snoc _ _ _ Hout).
    set (p0 := out ++ [image_name san (i + 1)]) in *.
    assert (∀ j, p0 ≠ out ++ [image_name san (S i + j + 1)]) as Hne.
    { intros j [=Heq%image_name_inj]%app_inv_head. lia. }
    assert (p0 ≠ out) as Hne'.
    { intros Heq. apply (f_equal length) in Heq. unfold p0 in Heq.
      rewrite length_app in Heq. simpl in Heq. lia. }
    set (w1 := {| fs := <[p0 := File img]> (fs w); stdout := stdout w |}).
    assert (∃ w', (print ("  Saved: " +:+ name p0);;
                   save_images out san (S i) rest) w1
              = (w', Raised (PyErr "IsADirectoryError"
                   (path_str (out ++ [image_name san (i + S k + 1)]))))
              ∧ (∀ j img', j < S k → (img :: rest) !! j = Some img' →
                   fs w' !! (out ++ [image_name san (i + j + 1)])
                   = Some (File img'))
              ∧ (∀ p, (∀ j, j < S k → p ≠ out ++ [image_name san (i + j + 1)])
                   → fs w' !! p = fs w !! p)) as Hrest.
    { rewrite bind_run, print_run.
      edestruct (IH rest out san (S i)) as (w' & Hrun & Hsaved & Hframe);
        last first.
      - exists w'. replace (i + S k + 1) with (S i + k + 1) by lia.
        split; [exact Hrun|]. split.
        + intros [|j] img' Hj Himg'; simpl in Himg'.
          * simplify_eq. rewrite Nat.add_0_r. fold p0.
            rewrite Hframe; [simpl; apply lookup_insert_eq|].
            intros j _. apply Hne.
          * replace (i + S j + 1) with (S i + j + 1) by lia.
            apply Hsaved; [lia|done].
        + intros p Hp. rewrite Hframe.
          * simpl. apply lookup_insert_ne. specialize (Hp 0 ltac:(lia)).
            rewrite Nat.add_0_r in Hp. done.
          * intros j Hj. replace (S i + j + 1) with (i + S j + 1) by lia.
            apply Hp. lia.
      - intros j Hj. unfold w1. cbn [fs].
        rewrite lookup_insert_ne by apply Hne.
        replace (S i + j + 1) with (i + S j + 1) by lia. apply Hfree. lia.
      - unfold w1. cbn [fs]. rewrite lookup_insert_ne by apply Hne.
        by replace (S i + k + 1) with (i + S k + 1) by lia.
      - lia.
      - simpl. by rewrite lookup_insert_ne. }
    destruct Hrest as (w' & Hrun & Hsaved & Hframe). exists w'.
    split; [|split; [exact Hsaved|exact Hframe]].
    rewrite <- Hrun. unfold w1.
    match goal with
    | |- context [match ?x with Some _ => _ | None => _ end] =>
        destruct x as [[c|]|] eqn:Hp0
    end; [reflexivity|by destruct H0|reflexivity].
Qed.

Lemma path_div_proper p (seg : string) :
  seg ≠ "" → seg ≠ "." → path_div p seg = p ++ [seg].
Proof. intros Ha Hb. unfold path_div. case_decide as Hc; [by destruct Hc|done]. Qed.

Lemma snoc_ne_self {A} (l : list A) x : l ≠ l ++ [x].
Proof.
  intros Heq. apply (f_equal length) in Heq.
  rewrite length_app in Heq. simpl in Heq. lia.
Qed.

Lemma snoc_snoc_ne {A} (l : list A) x y z : l ++ [x] ≠ (l ++ [y]) ++ [z].
Proof.
  intros Heq. apply (f_equal length) in Heq.
  rewrite !length_app in Heq. simpl in Heq. lia.
Qed.

(** X6. No cleanup after a failed save: when the folder is there, the
    name of page k+1 is taken by a directory and the names of the pages
    before it are not, the loop body returns after printing the error line
    of an IsADirectoryError, the images of the pages 1 to k are in the
    folder, and nothing else on the file system has changed. *)
Theorem failed_save_keeps_earlier_pages tools pdf_path n images k w :
  let pdf_name := stem (name pdf_path) in
  let san := sanitize_filename pdf_name in
  let out := path_div DOCUMENTS_DIR san in
  let page j := out ++ [san +:+ "_page_" +:+ str_of_nat (j + 1) +:+ ".png"] in
  fs w !! out = Some Dir →
  pdf_num_pages tools pdf_path = Returned n →
  convert_from_path tools pdf_path = Returned images →
  k < length images →
  fs w !! page k = Some Dir →
  (∀ j, j < k → fs w !! page j ≠ Some Dir) →
  ∃ w' e, process_pdf tools pdf_path w = (w', Returned ())
    ∧ exn_class e = "IsADirectoryError"
    ∧ last (stdout w') = Some ("Error processing " +:+ pdf_name +:+ ": "
                               +:+ exn_msg e)
    ∧ (∀ j img, j < k → images !! j = Some img →
         fs w' !! page j = Some (File img))
    ∧ (∀ p, (∀ j, j < k → p ≠ page j) → fs w' !! p = fs w !! p).
Proof.
  intros pdf_name san out page Hout Hn Himgs Hk Hdir Hfree.
  unfold process_pdf. fold pdf_name san out.
  rewrite bind_run. unfold mkdir_exist_ok at 1. unfold path in *.
  rewrite Hout. rewrite bind_run, print_run.
  unfold try_except, convert_pages. rewrite bind_run. unfold lift at 1.
  rewrite Hn, bind_run, print_run, bind_run. unfold lift at 1.
  rewrite Himgs, bind_run.
  match goal with
  | |- context [save_images out san 0 images ?w0] =>
      destruct (save_images_blocked k images out san 0 w0)
        as (w' & Hrun & Hsaved & Hframe); [done..|rewrite Hrun]
  end.
  rewrite print_run.
  eexists _, (PyErr "IsADirectoryError" (path_str (page k))).
  split; [reflexivity|].
  split; [reflexivity|]. split; [simpl; by rewrite last_snoc|].
  split; [exact Hsaved|exact Hframe].
Qed.

Lemma failed_save_keeps_earlier_pages_witness :
  ∃ w', process_pdf Sample.two_pages Sample.notes_pdf Scenario.blocked_world
        = (w', Returned ())
    ∧ fs w' !! ["documents"; "notes_ v2"; "notes_ v2_page_1.png"]
      = Some (File "page one").
Proof.
  destruct (failed_save_keeps_earlier_pages Sample.two_pages Sample.notes_pdf
              2 ["page one"; "page two"] 1 Scenario.blocked_world)
    as (w' & e & Hrun & _ & _ & Hsaved & _).
  - vm_compute; reflexivity.
  - reflexivity.
  - reflexivity.
  - simpl; lia.
  - vm_compute; reflexivity.
  - intros [|j] Hj; [by vm_compute|lia].
  - exists w'. split; [exact Hrun|].
    exact (Hsaved 0 "page one" (Nat.lt_0_succ 0) eq_refl).
Defined.

(** The folder of a document is a directory once the loop body returned,
    and every other folder of the documents directory is as before. *)
Lemma process_pdf_folder tools pdf_path w w' (s : string) :
  let san := sanitize_filename (stem (name pdf_path)) in
  san ≠ "" → san ≠ "." →
  process_pdf tools pdf_path w = (w', Returned ()) →
  fs w' !! DOCUMENTS_DIR = fs w !! DOCUMENTS_DIR
  ∧ fs w' !! (DOCUMENTS_DIR ++ [s])
    = if decide (s = san) then Some Dir else fs w !! (DOCUMENTS_DIR ++ [s]).
Proof.
  intros san H1 H2 H. split.
  - eapply process_pdf_frame; [exact H|..]; fold san;
      rewrite path_div_proper by done;
      [apply snoc_ne_self|].
    intros n Heq. apply (f_equal length) in Heq.
    rewrite !length_app in Heq. simpl in Heq. lia.
  - case_decide as Hs.
    + subst s. apply process_pdf_returned_dir in H. fold san in H.
      by rewrite path_div_proper in H.
    + eapply process_pdf_frame; [exact H|..]; fold san;
        rewrite path_div_proper by done.
      * intros [=]%app_inv_head. done.
      * intros n. apply snoc_snoc_ne.
Qed.

(** X7. The batch runs to its end when no folder name is taken by a
    file: if the documents directory is there and, for every PDF, the
    sanitized stem is a proper path segment whose folder is absent or a
    directory, then whatever the PDF libraries return or raise, the loop
    returns, and the folder of every PDF is a directory afterwards. *)
Theorem batch_returns_when_folders_free tools pdf_files w :
  let folder pdf_path :=
    DOCUMENTS_DIR ++ [sanitize_filename (stem (name pdf_path))] in
  fs w !! DOCUMENTS_DIR = Some Dir →
  Forall (λ pdf_path,
            sanitize_filename (stem (name pdf_path)) ≠ ""
            ∧ sanitize_filename (stem (name pdf_path)) ≠ "."
            ∧ (fs w !! folder pdf_path = None
               ∨ fs w !! folder pdf_path = Some Dir)) pdf_files →
  ∃ w', process_all tools pdf_files w = (w', Returned ())
    ∧ Forall (λ pdf_path, fs w' !! folder pdf_path = Some Dir) pdf_files.
Proof.
  intros folder Hdocs Hfree.
  cut (∃ w', process_all tools pdf_files w = (w', Returned ())
         ∧ fs w' !! DOCUMENTS_DIR = Some Dir
         ∧ (∀ s : string, fs w !! (DOCUMENTS_DIR ++ [s]) = Some Dir →
              fs w' !! (DOCUMENTS_DIR ++ [s]) = Some Dir)
         ∧ Forall (λ pdf_path, fs w' !! folder pdf_path = Some Dir) pdf_files).
  { intros (w' & ? & _ & _ & ?). by exists w'. }
  revert w Hdocs Hfree.
  induction pdf_files as [|pdf_path rest IH]; intros w Hdocs Hfree.
  { exists w. by split_and!. }
  apply Forall_cons in Hfree as [(Hne1 & Hne2 & Hfolder) Hrest].
  simpl. rewrite bind_run.
  destruct (mkdir_exist_ok_free (folder pdf_path) w Hfolder) as [w1 Hmk].
  { unfold folder. by apply is_dir_parent_snoc. }
  destruct (process_pdf_catches tools pdf_path w w1) as [w2 Hrun].
  { by rewrite path_div_proper. }
  rewrite Hrun.
  pose proof (λ s, process_pdf_folder tools pdf_path w w2 s Hne1 Hne2 Hrun)
    as Hw2.
  destruct (IH w2) as (w' & Hall & Hdocs' & Hkeep & Hdirs).
  { rewrite (proj1 (Hw2 "")). done. }
  { eapply Forall_impl; [exact Hrest|]. simpl.
    intros pdf (? & ? & Hf). split_and!; [done..|].
    unfold folder. rewrite (proj2 (Hw2 _)). case_decide; [by right|done]. }
  exists w'. split_and!; [done|done| |].
  - intros s Hs. apply Hkeep. rewrite (proj2 (Hw2 _)).
    by case_decide.
  - apply Forall_cons. split; [|done].
    apply Hkeep. unfold folder. rewrite (proj2 (Hw2 _)).
    by rewrite decide_True.
Qed.

Lemma batch_returns_when_folders_free_witness :
  ∃ w', process_all Sample.two_pages
          [["documents"; "x.pdf"]; ["documents"; "later.pdf"]]
          Sample.shadowed_world
        = (w', Returned ())
    ∧ fs w' !! ["documents"; "later"] = Some Dir.
Proof.
  destruct (batch_returns_when_folders_free Sample.two_pages
              [["documents"; "x.pdf"]; ["documents"; "later.pdf"]]
              Sample.shadowed_world)
    as (w' & Hrun & Hdirs).
  - vm_compute; reflexivity.
  - apply Forall_cons; split;
      [|apply Forall_cons; split; [|by apply Forall_nil]];
      (cbv beta; split;
       [by vm_compute|split; [by vm_compute|left; vm_compute; reflexivity]]).
  - exists w'. split; [exact Hrun|].
    apply Forall_cons in Hdirs as [_ [Hlater _]%Forall_cons]. exact Hlater.
Defined.

(** What a run of the loop body that ends with the success line leaves
    on the file system. *)
Lemma process_pdf_success tools pdf_path images w w' :
  let pdf_name := stem (name pdf_path) in
  let san := sanitize_filename pdf_name in
  let out := path_div DOCUMENTS_DIR san in
  convert_from_path tools pdf_path = Returned images →
  process_pdf tools pdf_path w = (w', Returned ()) →
  last (stdout w') = Some (success_line pdf_name) →
  (∀ j img, images !! j = Some img →
     fs w' !! (out ++ [image_name san (j + 1)]) = Some (File img))
  ∧ (∀ p, p ≠ out →
       (∀ j, j < length images → p ≠ out ++ [image_name san (j + 1)]) →
       fs w' !! p = fs w !! p).
Proof.
  intros pdf_name san out Himgs H Hlast.
  apply process_pdf_inv in H as [(e & _ & [=] & _)|(w1 & Hmk & _ & H)].
  fold pdf_name san out in Hmk, H. simpl in H.
  apply mkdir_exist_ok_inv in Hmk as [(_ & Hdir & _ & Hframe)|(e & [=] & _)].
  destruct H as [H|(w3 & e & H & ->)]; last first.
  { simpl in Hlast. rewrite last_snoc in Hlast. apply (inj Some) in Hlast.
    by apply symmetry, success_line_ne_error_line in Hlast. }
  eapply convert_pages_fs in H
    as [[_ [e' [=]]]|(wa & wb & rb & Hwa & Hsave & Hwb & Hrb)]; [|done].
  specialize (Hrb eq_refl) as ->. simpl in Hwa. split.
  - intros j img Hj. rewrite Hwb.
    by apply (save_images_saved images out san 0 wa wb).
  - intros p Hp Hpages. rewrite Hwb.
    erewrite save_images_frame; [|exact Hsave|exact Hpages].
    rewrite Hwa. by apply Hframe.
Qed.

(** X8. Two documents whose stems sanitize to the same name share one
    folder and one set of page names: after both went through with their
    success line, page j of the folder holds the image of the second
    document where it has a page j, still the image of the first document
    where only that one has a page j, and what was there before
    otherwise. *)
Theorem same_sanitized_name_shares_pages
    tools pdf1 pdf2 images1 images2 w w1 w2 :
  let san := sanitize_filename (stem (name pdf2)) in
  let page j :=
    path_div DOCUMENTS_DIR san
    ++ [san +:+ "_page_" +:+ str_of_nat (j + 1) +:+ ".png"] in
  sanitize_filename (stem (name pdf1)) = san →
  convert_from_path tools pdf1 = Returned images1 →
  convert_from_path tools pdf2 = Returned images2 →
  process_pdf tools pdf1 w = (w1, Returned ()) →
  last (stdout w1) = Some ("Successfully processed: " +:+ stem (name pdf1)) →
  process_pdf tools pdf2 w1 = (w2, Returned ()) →
  last (stdout w2) = Some ("Successfully processed: " +:+ stem (name pdf2)) →
  ∀ j, fs w2 !! page j
       = match images2 !! j, images1 !! j with
         | Some img, _ => Some (File img)
         | None, Some img => Some (File img)
         | None, None => fs w !! page j
         end.
Proof.
  intros san page Hsan Himgs1 Himgs2 Hrun1 Hlast1 Hrun2 Hlast2 j.
  destruct (process_pdf_success _ _ _ _ _ Himgs1 Hrun1 Hlast1)
    as [Hsaved1 Hframe1].
  destruct (process_pdf_success _ _ _ _ _ Himgs2 Hrun2 Hlast2)
    as [Hsaved2 Hframe2].
  rewrite Hsan in Hsaved1, Hframe1. fold san in Hsaved1, Hframe1.
  fold san in Hsaved2, Hframe2.
  assert (∀ i, i ≠ j →
    page j ≠ path_div DOCUMENTS_DIR san ++ [image_name san (i + 1)]) as Hne.
  { intros i Hi [=Heq%image_name_inj]%app_inv_head. lia. }
  destruct (images2 !! j) as [img|] eqn:H2; [by apply Hsaved2|].
  apply lookup_ge_None in H2.
  rewrite Hframe2;
    [|apply not_eq_sym, snoc_ne_self|intros i Hi; apply Hne; unfold image in *; lia].
  destruct (images1 !! j) as [img|] eqn:H1; [by apply Hsaved1|].
  apply lookup_ge_None in H1.
  apply Hframe1; [apply not_eq_sym, snoc_ne_self|intros i Hi; apply Hne; unfold image in *; lia].
Qed.

Lemma same_sanitized_name_shares_pages_witness :
  let w2 :=
    (process_pdf Scenario.by_name Scenario.query_pdf
       (process_pdf Scenario.by_name Scenario.colon_pdf
          Scenario.twins_world).1).1 in
  fs w2 !! ["documents"; "a_b"; "a_b_page_1.png"] = Some (File "B1")
  ∧ fs w2 !! ["documents"; "a_b"; "a_b_page_2.png"] = Some (File "A2").
Proof.
  intros w2.
  pose proof (same_sanitized_name_shares_pages Scenario.by_name
                Scenario.colon_pdf Scenario.query_pdf
                ["A1"; "A2"] ["B1"] Scenario.twins_world
                (process_pdf Scenario.by_name Scenario.colon_pdf
                   Scenario.twins_world).1 w2) as H.
  split; [refine (H _ _ _ _ _ _ _ 0)|refine (H _ _ _ _ _ _ _ 1)];
    vm_compute; reflexivity.
Defined.




End ConverterRuns.

(** ** More on the writer of the chat front end *)

Section WriterFacts.

Import Json ChatInterface.

Implicit Types (w : world) (rt : runtime) (s t u p : string)
  (q : abs_path).

Lemma append_inj_l s t u : s +:+ t = s +:+ u → t = u.
Proof.
  induction s as [|a s IH]; [done|].
  rewrite !append_cons. intros [=]. auto.
Qed.

(** *** File names *)

Lemma replace_dot_free_prefix s tail (old new : string) :
  forallb (λ c, negb (Ascii.eqb "." c)) (list_ascii_of_string s) = true →
  replace (s +:+ tail) (String "." old) new
  = s +:+ replace tail (String "." old) new.
Proof.
  intros Hs. unfold replace, re_sub. rewrite length_append.
  change (lits (String "." old)) with (lit "." :: lits old).
  apply sub_scan_skip. intros i c Hc.
  eapply forallb_string_get in Hs; [|exact Hc].
  by apply negb_true_iff in Hs.
Qed.

Lemma replace_dot_free s (old new : string) :
  forallb (λ c, negb (Ascii.eqb "." c)) (list_ascii_of_string s) = true →
  replace s (String "." old) new = s.
Proof.
  intros Hs. rewrite <-(append_nil_r s) at 1.
  rewrite replace_dot_free_prefix by done. apply append_nil_r.
Qed.

Lemma names_of_pdf_name s :
  forallb (λ c, negb (Ascii.eqb "." c)) (list_ascii_of_string s) = true →
  md_filename_of (s +:+ ".pdf") = s +:+ ".md"
  ∧ pdf_filename_of (s +:+ ".pdf") = s +:+ ".pdf".
Proof.
  intros Hs. unfold md_filename_of, pdf_filename_of.
  rewrite endswith_append.
  rewrite (replace_dot_free_prefix s ".pdf" "pdf" ".md") by exact Hs.
  rewrite (replace_dot_free_prefix s ".pdf" "md" ".pdf") by exact Hs.
  split; f_equal.
Qed.

Lemma names_of_md_name s :
  forallb (λ c, negb (Ascii.eqb "." c)) (list_ascii_of_string s) = true →
  md_filename_of (s +:+ ".md") = s +:+ ".md"
  ∧ pdf_filename_of (s +:+ ".md") = s +:+ ".pdf".
Proof.
  intros Hs. unfold md_filename_of, pdf_filename_of.
  rewrite (replace_dot_free_prefix s ".md" "md" ".pdf") by exact Hs.
  split; [|by f_equal].
  unfold endswith. rewrite rev_append.
  change (String.rev ".md") with "dm.". change (String.rev ".pdf") with "fdp.".
  unfold startswith. by rewrite !append_cons.
Qed.

Lemma names_of_plain_name s :
  forallb (λ c, negb (Ascii.eqb "." c)) (list_ascii_of_string s) = true →
  md_filename_of s = s ∧ pdf_filename_of s = s.
Proof.
  intros Hs. unfold md_filename_of, pdf_filename_of.
  rewrite !replace_dot_free by done. by destruct (endswith s ".pdf").
Qed.

(** X10. The two file names of the writer, for a stem without dot:
    [<stem>.pdf] and [<stem>.md] both give the Markdown file [<stem>.md]
    and the PDF file [<stem>.pdf]; the stem alone, a name without
    extension, gives itself for both. *)
Theorem file_names_of_dot_free_stem (stem : string) :
  forallb (λ c, negb (Ascii.eqb "." c)) (list_ascii_of_string stem) = true →
  (md_filename_of (stem +:+ ".pdf") = stem +:+ ".md"
   ∧ pdf_filename_of (stem +:+ ".pdf") = stem +:+ ".pdf")
  ∧ (md_filename_of (stem +:+ ".md") = stem +:+ ".md"
     ∧ pdf_filename_of (stem +:+ ".md") = stem +:+ ".pdf")
  ∧ (md_filename_of stem = stem ∧ pdf_filename_of stem = stem).
Proof.
  intros Hs. split_and!;
    first [by apply names_of_pdf_name | by apply names_of_md_name
          | by apply names_of_plain_name].
Qed.

Lemma file_names_of_dot_free_stem_witness :
  md_filename_of "gdp.pdf" = "gdp.md" ∧ pdf_filename_of "gdp.pdf" = "gdp.pdf".
Proof. exact (proj1 (file_names_of_dot_free_stem "gdp" eq_refl)). Defined.

(** *** The messages *)

Lemma created_ne_already filename :
  created_msg filename ≠ already_exists_msg filename.
Proof.
  unfold created_msg, already_exists_msg.
  by intros [=]%append_inj_l%append_inj_l.
Qed.

Lemma created_ne_error filename e :
  created_msg filename ≠ error_creating_msg filename e.
Proof. unfold created_msg, error_creating_msg. by rewrite !append_cons. Qed.

Lemma already_ne_error filename e :
  already_exists_msg filename ≠ error_creating_msg filename e.
Proof.
  unfold already_exists_msg, error_creating_msg. by rewrite !append_cons.
Qed.

(** *** Reading back *)

Lemma returned_inj {W A} (w w' : W) (a b : A) :
  (w, Returned a) = (w', Returned b) → w = w' ∧ a = b.
Proof. by intros [= -> ->]. Qed.

(** What [read_bytes] has found when it returns. *)
Lemma read_bytes_inv w p content :
  read_bytes w p = Returned content →
  ∃ q, locate w p = Returned (AtName q false)
    ∧ (NAME_MAX <? String.length (default "" (last q))) = false
    ∧ files w !! q = Some (File content).
Proof.
  unfold read_bytes. intros H.
  destruct (locate w p) as [[d|q slash]|e]; try done.
  destruct (NAME_MAX <? _) eqn:Hlen; [done|].
  destruct (files w !! q) as [[c|]|] eqn:Hq; try done.
  destruct slash; [done|]. injection H as ->. by exists q.
Qed.

Lemma read_bytes_exists w p content :
  read_bytes w p = Returned content → os_path_exists w p = true.
Proof.
  intros (q & Hloc & Hlen & Hq)%read_bytes_inv.
  unfold os_path_exists. by rewrite Hloc, Hlen, Hq.
Qed.

(** A file written under another entry leaves what a name reads. *)
Lemma read_bytes_other w p q' content' content :
  files w !! q' ≠ Some Dir →
  read_bytes w p = Returned content →
  locate w p ≠ Returned (AtName q' false) →
  read_bytes (set_files (<[q' := File content']> (files w)) w) p
  = Returned content.
Proof.
  intros Hq' (q & Hloc & Hlen & Hq)%read_bytes_inv Hne.
  unfold read_bytes.
  rewrite (locate_insert_file w p q' content' _ Hq' Hloc), Hlen.
  cbn [files set_files].
  rewrite lookup_insert_ne by (intros ->; by apply Hne).
  by rewrite Hq.
Qed.

(** *** The body run again *)

(** X11. After an execution of the body that wrote both files, an
    execution with the same arguments writes nothing: it returns the
    message that the file exists already and leaves session, files and
    page as they are. *)
Theorem identical_call_is_skipped rt content filename image_paths w w1 :
  write_markdown_to_file_body rt content filename image_paths w
  = (w1, Returned ("File " +:+ filename +:+ " has been created successfully."))
  →
  write_markdown_to_file_body rt content filename image_paths w1
  = (w1, Returned ("File " +:+ filename
                   +:+ " already exists with same content.")).
Proof.
  intros H. rewrite body_run in H. case_decide as Hskip.
  { apply returned_inj in H as [_ H].
    by apply symmetry, created_ne_already in H. }
  rewrite regenerate_run in H. cbv zeta in H.
  destruct (open_w w _) as [kmd|e] eqn:Hmd; last first.
  { apply returned_inj in H as [_ H].
    by apply symmetry, created_ne_error in H. }
  destruct (markdown_pdf rt _) as [bytes|e]; last first.
  { apply returned_inj in H as [_ H].
    by apply symmetry, created_ne_error in H. }
  destruct (open_w _ (pdf_filename_of filename)) as [kpdf|e] eqn:Hpdf;
    last first.
  { apply returned_inj in H as [_ H].
    by apply symmetry, created_ne_error in H. }
  apply returned_inj in H as [<- _].
  rewrite body_run. rewrite decide_True; [done|]. split.
  - cbn. apply lookup_insert_eq.
  - by apply (open_w_written _ _ _ bytes Hpdf).
Qed.

Lemma identical_call_is_skipped_witness :
  let rt := Sample.agent_saying "{}" in
  let w1 :=
    (write_markdown_to_file_body rt "# GDP" "gdp.pdf" [] Sample.fresh).1 in
  write_markdown_to_file_body rt "# GDP" "gdp.pdf" [] w1
  = (w1, Returned "File gdp.pdf already exists with same content.").
Proof.
  intros rt w1.
  apply (identical_call_is_skipped rt "# GDP" "gdp.pdf" [] Sample.fresh w1).
  vm_compute; reflexivity.
Defined.

(** X12. The hash is recorded before the files are written: when the
    renderer raises while the Markdown file can be written and an older
    PDF is on disk, under another entry than the Markdown file, the body
    reports the error, the Markdown file holds the new content, the PDF
    file is the old one, and the hash of the new content is recorded, so
    that the next execution with the same arguments answers that the file
    exists already with the same content. *)
Theorem failed_render_then_skipped
    rt content filename image_paths e kmd old w :
  let md := md_filename_of filename in
  let pdf := pdf_filename_of filename in
  let h := content_hash rt content image_paths in
  markdown_pdf rt (with_images rt content image_paths) = Raised e →
  file_hashes (session w) !! md ≠ Some h →
  open_w w md = Returned kmd →
  read_bytes w pdf = Returned old →
  locate w pdf ≠ locate w md →
  ∃ w1,
    write_markdown_to_file_body rt content filename image_paths w
    = (w1, Returned ("Error creating file " +:+ filename +:+ ": "
                     +:+ exn_msg e))
    ∧ file_hashes (session w1) !! md = Some h
    ∧ read_bytes w1 md = Returned (with_images rt content image_paths)
    ∧ read_bytes w1 pdf = Returned old
    ∧ write_markdown_to_file_body rt content filename image_paths w1
      = (w1, Returned ("File " +:+ filename
                       +:+ " already exists with same content.")).
Proof.
  intros md pdf h Hrender Hhash Hmd Hpdf Hne.
  rewrite body_run. fold md pdf h.
  rewrite decide_False by (by intros [? _]).
  rewrite regenerate_run. fold md pdf. cbv zeta. rewrite Hmd, Hrender.
  set (content' := with_images rt content image_paths).
  set (w1 := set_screen _ _).
  pose (wf := set_files (<[kmd := File content']> (files w)) w).
  destruct (open_w_written w md kmd content' Hmd) as (_ & _ & Hread).
  pose proof (open_w_inv _ _ _ Hmd) as (Hloc & _ & Hdir & _).
  assert (read_bytes w1 pdf = Returned old) as Hold.
  { rewrite (read_bytes_ext wf w1) by done.
    apply read_bytes_other; [done..|]. by rewrite <-Hloc. }
  exists w1. split; [done|]. split; [apply lookup_insert_eq|].
  split; [by rewrite (read_bytes_ext wf w1)|]. split; [done|].
  rewrite body_run. fold md pdf h. rewrite decide_True; [done|].
  split; [apply lookup_insert_eq|by eapply read_bytes_exists].
Qed.

Lemma failed_render_then_skipped_witness :
  ∃ w1,
    write_markdown_to_file_body Scenario.renderer_down "# GDP" "gdp.pdf" []
      Scenario.older_report
    = (w1, Returned "Error creating file gdp.pdf: renderer failed")
    ∧ read_bytes w1 "gdp.md" = Returned "# GDP"
    ∧ read_bytes w1 "gdp.pdf" = Returned "%PDF old"
    ∧ write_markdown_to_file_body Scenario.renderer_down "# GDP" "gdp.pdf" []
        w1
      = (w1, Returned "File gdp.pdf already exists with same content.").
Proof.
  destruct (failed_render_then_skipped Scenario.renderer_down "# GDP"
              "gdp.pdf" [] (PyErr "RuntimeError" "renderer failed")
              (Sample.app_dir ++ ["gdp.md"]) "%PDF old"
              Scenario.older_report)
    as (w1 & Hrun & _ & Hmd & Hpdf & Hagain).
  - reflexivity.
  - by vm_compute.
  - vm_compute; reflexivity.
  - vm_compute; reflexivity.
  - by vm_compute.
  - exists w1. split; [exact Hrun|]. split; [exact Hmd|].
    split; [exact Hpdf|exact Hagain].
Defined.

(** X13. For a file name without dot the Markdown file and the PDF
    file are one file: after every execution of the body that reports
    the creation, the renderer has returned, the name opens an entry of
    the file system (so its directory is there and the name is not
    empty), and the files are the old ones and that entry, which holds
    the rendered PDF; the Markdown text written first is overwritten. *)
Theorem extensionless_name_holds_pdf_only
    rt content filename image_paths w w' :
  forallb (λ c, negb (Ascii.eqb "." c)) (list_ascii_of_string filename) = true
  →
  write_markdown_to_file_body rt content filename image_paths w
  = (w', Returned ("File " +:+ filename +:+ " has been created successfully."))
  →
  ∃ q bytes,
    markdown_pdf rt (with_images rt content image_paths) = Returned bytes
    ∧ open_w w filename = Returned q
    ∧ files w' = <[q := File bytes]> (files w).
Proof.
  intros [Hmd Hpdf]%names_of_plain_name H.
  rewrite body_run in H. case_decide as Hskip.
  { apply returned_inj in H as [_ H].
    by apply symmetry, created_ne_already in H. }
  rewrite regenerate_run in H. cbv zeta in H. rewrite Hmd, Hpdf in H.
  destruct (open_w w filename) as [kmd|e] eqn:Hopen; last first.
  { apply returned_inj in H as [_ H].
    by apply symmetry, created_ne_error in H. }
  destruct (markdown_pdf rt _) as [bytes|e]; last first.
  { apply returned_inj in H as [_ H].
    by apply symmetry, created_ne_error in H. }
  destruct (open_w_written w filename kmd
              (with_images rt content image_paths) Hopen) as (Hagain & _).
  match type of H with
  | context [open_w ?w1 filename] =>
      replace (open_w w1 filename) with (@Returned abs_path kmd) in H
        by (symmetry; etrans; [|exact Hagain]; by apply open_w_ext)
  end.
  apply returned_inj in H as [<- _].
  exists kmd, bytes. split; [done|]. split; [done|].
  cbn. apply insert_insert_eq.
Qed.

Lemma extensionless_name_holds_pdf_only_witness :
  ∃ w', write_markdown_to_file_body (Sample.agent_saying "{}") "# GDP" "gdp"
          [] Sample.fresh
        = (w', Returned "File gdp has been created successfully.")
    ∧ files w'
      = <[Sample.app_dir ++ ["gdp"] := File "%PDF # GDP"]>
          (files Sample.fresh).
Proof.
  eexists. split; [vm_compute; reflexivity|].
  destruct (extensionless_name_holds_pdf_only (Sample.agent_saying "{}")
              "# GDP" "gdp" [] Sample.fresh _ eq_refl eq_refl)
    as (q & bytes & Hrender & Hopen & Hfiles).
  injection Hrender as <-. injection Hopen as <-. exact Hfiles.
Defined.

(** A name whose directory is not there, or an empty name, is not
    written: the body reports the error of [open]. *)
Example missing_directory_is_reported :
  let body filename :=
    write_markdown_to_file_body (Sample.agent_saying "{}") "# GDP" filename
      [] Sample.fresh in
  (body "reports/gdp").2
  = Returned ("Error creating file reports/gdp: [Errno 2] No such file or "
              +:+ "directory: 'reports/gdp'")
  ∧ files (body "reports/gdp").1 = files Sample.fresh
  ∧ (body "").2
    = Returned "Error creating file : [Errno 2] No such file or directory: ''".
Proof. vm_compute. split_and!; reflexivity. Qed.

(** *** The download link *)

(** X14. When the name the link reads is the name the writer gives the
    PDF, the call is not in the store of [st.cache_data], and the body
    reports the creation (so both files were opened and the renderer
    returned), [download_button] returns the link that carries the bytes
    the renderer produced, and the PDF file holds them. *)
Theorem download_link_embeds_rendered_pdf
    rt content filename image_paths w w1 :
  let pdf := pdf_filename_of filename in
  replace filename "assets" "" = pdf →
  cache w !! (content, filename, image_paths) = None →
  write_markdown_to_file_body rt content filename image_paths w
  = (w1, Returned ("File " +:+ filename +:+ " has been created successfully."))
  →
  ∃ w' bytes,
    markdown_pdf rt (with_images rt content image_paths) = Returned bytes
    ∧ download_button rt content filename image_paths w
      = (w', Returned (StDownloadLink pdf bytes))
    ∧ read_bytes w' pdf = Returned bytes.
Proof.
  intros pdf Hread Hmiss H.
  unfold download_button. rewrite Hread, bind_run.
  unfold write_markdown_to_file, st_cache_data.
  match goal with
  | |- context [match ?x with Some _ => _ | None => _ end] =>
      replace x with (@None (string * list ui_event)) by (by rewrite <-Hmiss)
  end.
  rewrite H. rewrite bind_run. unfold read_file at 1.
  rewrite body_run in H. case_decide as Hskip.
  { apply returned_inj in H as [_ H].
    by apply symmetry, created_ne_already in H. }
  rewrite regenerate_run in H. cbv zeta in H.
  destruct (open_w w _) as [kmd|e] eqn:Hmd; last first.
  { apply returned_inj in H as [_ H].
    by apply symmetry, created_ne_error in H. }
  destruct (markdown_pdf rt _) as [bytes|e]; last first.
  { apply returned_inj in H as [_ H].
    by apply symmetry, created_ne_error in H. }
  destruct (open_w _ (pdf_filename_of filename)) as [kpdf|e] eqn:Hpdf;
    last first.
  { apply returned_inj in H as [_ H].
    by apply symmetry, created_ne_error in H. }
  apply returned_inj in H as [<- _].
  destruct (open_w_written _ _ _ bytes Hpdf) as (_ & _ & Hbytes).
  fold pdf in Hbytes.
  match goal with
  | |- context [read_bytes ?w2 pdf] =>
      assert (read_bytes w2 pdf = Returned bytes) as Hbytes'
        by (by rewrite <-Hbytes; apply read_bytes_ext)
  end.
  rewrite Hbytes'. by eexists _, bytes.
Qed.

Lemma download_link_embeds_rendered_pdf_witness :
  ∃ w', download_button (Sample.agent_saying "{}") "# GDP" "gdp.pdf" []
          Sample.fresh
        = (w', Returned (StDownloadLink "gdp.pdf" "%PDF # GDP"))
    ∧ read_bytes w' "gdp.pdf" = Returned "%PDF # GDP".
Proof.
  destruct (download_link_embeds_rendered_pdf (Sample.agent_saying "{}")
              "# GDP" "gdp.pdf" [] Sample.fresh _ eq_refl eq_refl
              (surjective_pairing _))
    as (w' & bytes & Hrender & Hrun & Hbytes).
  injection Hrender as <-. by exists w'.
Defined.

(** A call that is answered from the store reads what is on disk: with
    the PDF removed after the first call, the link cannot be made and
    [download_button] raises. *)
Example download_after_removal :
  let rt := Sample.agent_saying "{}" in
  let w1 := (download_button rt "# GDP" "gdp.pdf" [] Sample.fresh).1 in
  let removed :=
    set_files (delete (Sample.app_dir ++ ["gdp.pdf"]) (files w1)) w1 in
  (download_button rt "# GDP" "gdp.pdf" [] removed).2
  = Raised (ENOENT "gdp.pdf").
Proof. vm_compute. reflexivity. Qed.

End WriterFacts.

(** ** The script run as a whole *)

Section ScriptFacts.

Import Json ChatInterface ChatFrame.

Implicit Types (w : world) (rt : runtime).

Lemma written_app evs evs' : written (evs ++ evs') = written evs ++ written evs'.
Proof. apply omap_app. Qed.

Lemma written_other e : (∀ text, e ≠ StWrite text) → written [e] = [].
Proof. intros He. destruct e; try done. by destruct (He text). Qed.

(** *** What is shown *)

Lemma screen_extends_refl w : screen_extends w w.
Proof. intros Hw. split; [done|]. exists []. by rewrite app_nil_r. Qed.

Lemma screen_extends_trans w1 w2 w3 :
  screen_extends w1 w2 → screen_extends w2 w3 → screen_extends w1 w3.
Proof.
  intros H12 H23 Hw1.
  destruct (H12 Hw1) as (Hw2 & evs1 & H1 & He1).
  destruct (H23 Hw2) as (Hw3 & evs2 & H2 & He2).
  split; [done|]. exists (evs1 ++ evs2).
  by rewrite H2, H1, <-app_assoc, written_app, He1, He2.
Qed.

Lemma screen_extends_display_chat rt chat w w' r :
  replays_no_write w →
  display_chat rt chat w = (w', r) →
  replays_no_write w'
  ∧ ∃ evs, screen w' = screen w ++ evs ∧ written evs = [query chat].
Proof.
  intros Hw H.
  apply (display_chat_respects screen_extends) in H.
  - destruct (H Hw) as (Hw' & evs & Hscr & Hevs). split; [done|].
    exists (StWrite (query chat) :: evs). cbn in Hscr.
    rewrite Hscr, <-app_assoc. split; [done|].
    change (written (StWrite (query chat) :: evs))
      with (query chat :: written evs). by rewrite Hevs.
  - apply screen_extends_refl.
  - apply screen_extends_trans.
  - intros w0 e He Hw0. split; [done|].
    exists [e]. split; [done|by apply written_other].
  - intros w0 p c Hw0. split; [done|]. exists []. by rewrite app_nil_r.
  - intros w0 k h Hw0. split; [done|]. exists []. by rewrite app_nil_r.
  - intros w0 key value shown Hkey Hw0. split; [done|].
    exists shown. split; [done|]. by eapply Hw0.
  - intros w0 w1 key value H01 Hw0.
    destruct (H01 Hw0) as (Hw1 & evs & Hscr & Hevs). split.
    + intros key' value' shown'. cbn.
      destruct (decide (key = key')) as [<-|Hne].
      * rewrite lookup_insert_eq. intros [= <- <-].
        by rewrite Hscr, drop_app_length.
      * rewrite lookup_insert_ne by done. apply Hw1.
    + by exists evs.
Qed.

Lemma screen_display_all rt chats w :
  replays_no_write w →
  ∃ w' evs, display_all rt chats w = (w', Returned ())
    ∧ replays_no_write w'
    ∧ screen w' = screen w ++ evs
    ∧ written evs = query <$> chats.
Proof.
  revert w. induction chats as [|chat rest IH]; intros w Hw.
  { exists w, []. by rewrite app_nil_r. }
  simpl. rewrite bind_run.
  destruct (display_chat_returns rt chat w) as [w1 H1]. rewrite H1.
  apply screen_extends_display_chat in H1 as (Hw1 & evs1 & Hscr1 & He1);
    [|done].
  destruct (IH w1 Hw1) as (w' & evs & Hrun & Hw' & Hscr & He).
  exists w', (evs1 ++ evs). split; [done|]. split; [done|].
  rewrite Hscr, Hscr1, <-app_assoc, written_app, He1, He. done.
Qed.

(** X15. A script run always returns, on a page whose store of
    [st.cache_data] replays no [st.write] (so it is on a new page, and so
    it stays). The run stores a record exactly when the query is not
    empty, the agent returns and the metrics check goes through, that is
    the metrics string is valid JSON or [json.loads] rejects it with a
    [JSONDecodeError]; then it ends with the rerun and writes no query.
    In every other case (no query, an empty query, a failed agent call,
    a metrics check that raises another exception) its [st.write] calls
    show the queries of the stored records, all of them and in the order
    of the transcript, whatever fails while a record is displayed. *)
Theorem every_stored_query_is_shown rt user_query w :
  let stored :=
    match user_query with
    | Some q =>
        if decide (q = "") then false
        else match run_agent rt q with
             | Returned r =>
                 match json_loads (json_limits rt)
                         (replace (metrics_dict r) "'" (String quote "")) with
                 | Returned _ => true
                 | Raised e => bool_decide (exn_class e = "JSONDecodeError")
                 end
             | Raised _ => false
             end
    | None => false
    end in
  replays_no_write w →
  ∃ w' evs, main rt user_query w = (w', Returned ())
    ∧ screen w' = screen w ++ evs
    ∧ omap (λ e, match e with StWrite text => Some text | _ => None end) evs
      = (if stored then [] else query <$> chat_history (session w))
    ∧ length (chat_history (session w'))
      = (if stored then 1 else 0) + length (chat_history (session w))
    ∧ replays_no_write w'.
Proof.
  intros stored Hw.
  unfold main. rewrite bind_run.
  assert (∀ w0 : world, replays_no_write w0 → ∃ w' evs,
    (ss ← get_session; display_all rt (chat_history ss)) w0
    = (w', Returned ())
    ∧ screen w' = screen w0 ++ evs
    ∧ written evs = query <$> chat_history (session w0)
    ∧ length (chat_history (session w')) = length (chat_history (session w0))
    ∧ replays_no_write w') as Hshow.
  { intros w0 Hw0. rewrite bind_run. unfold get_session at 1.
    destruct (screen_display_all rt (chat_history (session w0)) w0 Hw0)
      as (w' & evs & Hrun & Hw' & Hscr & He).
    exists w', evs. split_and!; try done.
    apply keeps_display_all in Hrun. by rewrite Hrun. }
  assert (∀ e : ui_event, (∀ text, e ≠ StWrite text) → ∃ w' evs,
    (ss ← get_session; display_all rt (chat_history ss))
      (set_screen (screen w ++ [e]) w)
    = (w', Returned ())
    ∧ screen w' = screen w ++ evs
    ∧ written evs = query <$> chat_history (session w)
    ∧ length (chat_history (session w')) = 0 + length (chat_history (session w))
    ∧ replays_no_write w') as Hafter.
  { intros e He.
    destruct (Hshow (set_screen (screen w ++ [e]) w) Hw)
      as (w' & evs & Hrun & Hscr & Hev & Hlen & Hw').
    exists w', (e :: evs). split; [exact Hrun|]. cbn in Hscr.
    rewrite Hscr, <-app_assoc. split; [done|]. split; [|done].
    change (e :: evs) with ([e] ++ evs).
    by rewrite written_app, written_other. }
  destruct user_query as [q|]; [|by apply Hshow].
  unfold stored. case_bool_decide as Hq.
  { rewrite decide_True by done. by apply Hshow. }
  rewrite decide_False by done.
  rewrite process_query_run.
  destruct (run_agent rt q) as [resp|e]; [|by apply Hafter].
  rewrite validate_metrics_run.
  destruct (json_loads _ _) as [v|e].
  - eexists _, []. rewrite app_nil_r. by split_and!.
  - case_decide as Hcls.
    + rewrite bool_decide_eq_true_2 by done.
      eexists _, [invalid_metrics_warning e]. by split_and!.
    + rewrite bool_decide_eq_false_2 by done. by apply Hafter.
Qed.

Lemma every_stored_query_is_shown_witness :
  ∃ w' evs,
    main (Sample.agent_saying Scenario.long_integer) (Some "growth?")
      Scenario.two_stored
    = (w', Returned ())
    ∧ screen w' = evs
    ∧ omap (λ e, match e with StWrite text => Some text | _ => None end) evs
      = ["second"; "first"]
    ∧ length (chat_history (session w')) = 2.
Proof.
  destruct (every_stored_query_is_shown
              (Sample.agent_saying Scenario.long_integer) (Some "growth?")
              Scenario.two_stored)
    as (w' & evs & Hrun & Hscr & Hev & Hlen & _).
  - intros key value shown Hkey. vm_compute in Hkey. discriminate.
  - exists w', evs. split; [exact Hrun|]. split; [exact Hscr|].
    split; [|exact Hlen].
    etrans; [exact Hev|]. vm_compute. reflexivity.
Defined.

(** *** What is kept *)

Lemma nothing_removed_refl w : nothing_removed w w.
Proof. by split_and!. Qed.

Lemma nothing_removed_trans w1 w2 w3 :
  nothing_removed w1 w2 → nothing_removed w2 w3 → nothing_removed w1 w3.
Proof.
  intros (Hf1 & Hh1 & Hc1) (Hf2 & Hh2 & Hc2). split_and!.
  - intros p Hp. by apply Hf2, Hf1.
  - intros k Hk. by apply Hh2, Hh1.
  - by etrans.
Qed.

Lemma nothing_removed_display_chat rt chat w w' r :
  display_chat rt chat w = (w', r) → nothing_removed w w'.
Proof.
  intros H.
  apply (display_chat_respects nothing_removed) in H.
  - destruct H as (Hf & Hh & Hc). by split_and!.
  - apply nothing_removed_refl.
  - apply nothing_removed_trans.
  - intros w0 e _. by split_and!.
  - intros w0 p c. split_and!; [|done..]. cbn. intros q Hq.
    destruct (decide (p = q)) as [->|Hne];
      [by rewrite lookup_insert_eq|by rewrite lookup_insert_ne].
  - intros w0 k h. split_and!; [done| |done]. cbn. intros q Hq.
    destruct (decide (k = q)) as [->|Hne];
      [by rewrite lookup_insert_eq|by rewrite lookup_insert_ne].
  - intros w0 key value shown _. by split_and!.
  - intros w0 w1 key value (Hf & Hh & Hc). by split_and!.
Qed.

Lemma nothing_removed_display_all rt chats w w' r :
  display_all rt chats w = (w', r) → nothing_removed w w'.
Proof.
  revert w. induction chats as [|chat rest IH]; intros w H.
  { injection H as <- _. apply nothing_removed_refl. }
  simpl in H. rewrite bind_run in H.
  destruct (display_chat rt chat w) as [w1 [[]|e]] eqn:H1.
  - eapply nothing_removed_trans;
      [by eapply nothing_removed_display_chat|by apply IH].
  - injection H as <- _. by eapply nothing_removed_display_chat.
Qed.

(** X16. A script run removes nothing: every file and every recorded
    hash that was there is there afterwards, and the old transcript is a
    suffix of the new one. *)
Theorem script_run_removes_nothing rt user_query w w' r :
  main rt user_query w = (w', r) →
  (∀ p, is_Some (files w !! p) → is_Some (files w' !! p))
  ∧ (∀ k, is_Some (file_hashes (session w) !! k)
          → is_Some (file_hashes (session w') !! k))
  ∧ chat_history (session w) `suffix_of` chat_history (session w').
Proof.
  intros H. change (nothing_removed w w').
  unfold main in H. rewrite bind_run in H.
  assert (∀ w0 : world,
    (ss ← get_session; display_all rt (chat_history ss)) w0 = (w', r) →
    nothing_removed w0 w') as Hshow.
  { intros w0 H0. rewrite bind_run in H0. unfold get_session at 1 in H0.
    by eapply nothing_removed_display_all. }
  destruct user_query as [q|]; [|by apply Hshow].
  case_bool_decide as Hq; [by apply Hshow|].
  rewrite process_query_run in H.
  destruct (run_agent rt q) as [resp|e].
  - rewrite validate_metrics_run in H.
    destruct (json_loads _ _) as [v|e].
    + injection H as <- _. split_and!; [done..|]. by apply suffix_cons_r.
    + case_decide.
      * injection H as <- _. split_and!; [done..|]. by apply suffix_cons_r.
      * eapply nothing_removed_trans; [|by apply Hshow]. by split_and!.
  - eapply nothing_removed_trans; [|by apply Hshow].
    by split_and!.
Qed.

Lemma script_run_removes_nothing_witness :
  chat_history (session Scenario.two_stored)
  `suffix_of`
  chat_history
    (session (main (Sample.agent_saying "{}") (Some "growth?")
                Scenario.two_stored).1).
Proof.
  exact (proj2 (proj2
    (script_run_removes_nothing (Sample.agent_saying "{}") (Some "growth?")
       Scenario.two_stored _ _ (surjective_pairing _)))).
Defined.

(** *** What is stored *)

(** X17. In an interpreter with room for one level of nesting at the
    call of [json.loads] (so that [{}] parses): if every metrics string
    of the transcript passes the check of [main] (single quotes replaced
    by double quotes, then [json.loads]), so does every metrics string of
    the transcript after a script run. *)
Theorem stored_metrics_always_parse rt user_query w w' r :
  let accepted (chat : chat_record) :=
    ∃ v, json_loads (json_limits rt)
           (replace (metrics_dict (response chat)) "'" (String quote ""))
         = Returned v in
  0 < recursion_budget (json_limits rt) →
  Forall accepted (chat_history (session w)) →
  main rt user_query w = (w', r) →
  Forall accepted (chat_history (session w')).
Proof.
  intros accepted Hroom Hw H. unfold main in H. rewrite bind_run in H.
  assert (∀ w0 : world,
    chat_history (session w0) = chat_history (session w) →
    (ss ← get_session; display_all rt (chat_history ss)) w0 = (w', r) →
    Forall accepted (chat_history (session w'))) as Hshow.
  { intros w0 Hw0 H0. rewrite bind_run in H0.
    unfold get_session at 1 in H0.
    apply keeps_display_all in H0. by rewrite H0, Hw0. }
  destruct user_query as [q|]; [|by apply (Hshow w)].
  case_bool_decide as Hq; [by apply (Hshow w)|].
  rewrite process_query_run in H.
  destruct (run_agent rt q) as [resp|e]; [|by apply Hshow in H].
  rewrite validate_metrics_run in H.
  destruct (json_loads _ _) as [v|e] eqn:Hparse.
  - injection H as <- _. cbn. apply Forall_cons; split; [|done].
    by exists v.
  - case_decide; [|by apply Hshow in H].
    injection H as <- _. cbn. apply Forall_cons; split; [|done].
    exists (JObject []). cbn.
    unfold json_loads. destruct (recursion_budget _); [lia|reflexivity].
Qed.

Lemma stored_metrics_always_parse_witness :
  Forall (λ chat, ∃ v, json_loads Sample.default_limits
                         (replace (metrics_dict (response chat)) "'"
                            (String quote ""))
                       = Returned v)
    (chat_history
       (session (main (Sample.agent_saying "not json") (Some "growth?")
                   Scenario.two_stored).1)).
Proof.
  apply (stored_metrics_always_parse (Sample.agent_saying "not json")
           (Some "growth?") Scenario.two_stored _
           (main (Sample.agent_saying "not json") (Some "growth?")
              Scenario.two_stored).2).
  - vm_compute. lia.
  - apply Forall_cons; split;
      [|apply Forall_cons; split; [|by apply Forall_nil]];
      eexists; vm_compute; reflexivity.
  - apply surjective_pairing.
Defined.

End ScriptFacts.
